(** * mcp-osrs: the paginated substring search over line-oriented data files

    A shallow embedding of [searchFile], [getFileDetails] and
    [getFileLineCount] of the server together with the JavaScript built-ins
    they call, followed by the properties of the search engine.

    Conventions of the embedding.
    - A JavaScript string is the list of its UTF-16 code units.
    - The numbers the engine handles ([page], [pageSize], line numbers,
      lengths) are integers; they are embedded in [Z], and the one
      division, [totalResults / pageSize], is taken in [Q] before
      [Math.ceil] rounds it.
    - [String.prototype.toLowerCase] depends on the Unicode case tables,
      which are not part of the program: it is a parameter of the
      development.  [ascii_toLowerCase] is the instance used to run the
      definitions on ASCII data.
    - The file system and the [readline] interface are the environment:
      a path is either absent or holds a file, and a file comes with the
      sequence of events its [readline] interface emits. *)

From Stdlib Require Import String Ascii.
From Stdlib Require Import List ZArith NArith QArith Qround Bool Lia Sorted.
Import ListNotations.
Local Open Scope Z_scope.

(* ================================================================= *)
(** ** JavaScript strings and the built-ins used by the program *)

Module JS.

(** A UTF-16 code unit. *)
Definition char := N.

Definition jsstring := list char.

(** Reads a literal: every byte of an ASCII literal is one code unit. *)
Definition str (s : string) : jsstring :=
  map N_of_ascii (list_ascii_of_string s).

Definition SPACE : char := 32%N.
Definition UNDERSCORE : char := 95%N.
Definition TAB : char := 9%N.
Definition NEWLINE : char := 10%N.

(** The class [\s] of a regular expression: WhiteSpace and
    LineTerminator of ECMAScript. *)
Definition isWhiteSpace (c : char) : bool :=
  match c with
  | 9%N | 10%N | 11%N | 12%N | 13%N | 32%N | 160%N | 5760%N
  | 8232%N | 8233%N | 8239%N | 8287%N | 12288%N | 65279%N => true
  | _ => (8192 <=? c)%N && (c <=? 8202)%N
  end.

(** [s.startsWith(sub)]. *)
Fixpoint startsWith (s sub : jsstring) {struct sub} : bool :=
  match sub, s with
  | [], _ => true
  | _ :: _, [] => false
  | c :: sub', d :: s' => (c =? d)%N && startsWith s' sub'
  end.

(** [s.includes(sub)]: [sub] occurs in [s] at some position. *)
Fixpoint includes (s sub : jsstring) : bool :=
  startsWith s sub ||
  match s with
  | [] => false
  | _ :: s' => includes s' sub
  end.

(** [s.replace(pat, rep)] for a string pattern [pat]: only the first
    occurrence of [pat] is replaced.  ([rep] is inserted as it is: the
    replacement the program passes has no [$] pattern.) *)
Fixpoint replace (s pat rep : jsstring) : jsstring :=
  if startsWith s pat then rep ++ skipn (length pat) s
  else match s with
       | [] => []
       | c :: s' => c :: replace s' pat rep
       end.

(** [s.split(sep)] for a separator of one code unit: the pieces between
    the occurrences of [sep], empty pieces included. *)
Fixpoint split (sep : char) (s : jsstring) : list jsstring :=
  match s with
  | [] => [[]]
  | c :: s' =>
      if (c =? sep)%N then [] :: split sep s'
      else match split sep s' with
           | p :: ps => (c :: p) :: ps
           | [] => [[c]]
           end
  end.

(** [s.split(/\s+/)]: the pieces between the maximal runs of white
    space.  A run at the start leaves an empty first piece, a run at the
    end an empty last piece, and the empty string gives one empty
    piece. *)
Fixpoint split_ws (s : jsstring) : list jsstring :=
  match s with
  | [] => [[]]
  | c :: s' =>
      if isWhiteSpace c then
        match s' with
        | d :: _ => if isWhiteSpace d then split_ws s' else [] :: split_ws s'
        | [] => [] :: split_ws s'
        end
      else match split_ws s' with
           | p :: ps => (c :: p) :: ps
           | [] => [[c]]
           end
  end.

(** [parts.join(sep)]. *)
Fixpoint join (sep : jsstring) (parts : list jsstring) : jsstring :=
  match parts with
  | [] => []
  | [p] => p
  | p :: ps => p ++ sep ++ join sep ps
  end.

(** [l.slice(start, end)] of an array: a negative index counts from the
    end, both indices are clamped to [0 .. length], and an absent [end]
    is the length. *)
Definition slice {A : Type} (l : list A) (start : Z) (end_ : option Z)
  : list A :=
  let len := Z.of_nat (length l) in
  let k := if start <? 0 then Z.max (len + start) 0 else Z.min start len in
  let final :=
    match end_ with
    | None => len
    | Some e => if e <? 0 then Z.max (len + e) 0 else Z.min e len
    end in
  firstn (Z.to_nat (Z.max (final - k) 0)) (skipn (Z.to_nat k) l).

(** [Math.ceil(a / b)] on integers [a] and [b <> 0]: the quotient is
    the exact rational.  (The program divides by [pageSize], which its
    callers take from a schema that requires [pageSize >= 1].) *)
Definition Math_ceil_div (a b : Z) : Z :=
  Qceiling (inject_Z a / inject_Z b)%Q.

(** Lower-casing of the ASCII letters, every other code unit kept. *)
Definition ascii_toLowerCase (s : jsstring) : jsstring :=
  map (fun c => if (65 <=? c)%N && (c <=? 90)%N then (c + 32)%N else c) s.

End JS.

Import JS.

(* ================================================================= *)
(** ** The environment: file system and readline *)

(** What [fs.statSync] reports (times as numbers). *)
Record Stats := {
  size : Z;
  birthtime : Z;
  mtime : Z
}.

(** An event of the [readline] interface over the file's stream. *)
Inductive rl_event :=
| LineEvent (text : jsstring)
| CloseEvent
| ErrorEvent (cause : jsstring).

(** A file as the program observes it.  A call of the synchronous API
    that throws is [None]. *)
Record File := {
  file_stats : option Stats;       (* fs.statSync(path) *)
  file_utf8 : option jsstring;     (* fs.readFileSync(path, 'utf8') *)
  file_events : list rl_event      (* readline over fs.createReadStream(path) *)
}.

Definition FileSystem := jsstring -> option File.

Definition existsSync (fs : FileSystem) (path : jsstring) : bool :=
  match fs path with
  | Some _ => true
  | None => false
  end.

Definition statSync (fs : FileSystem) (path : jsstring) : option Stats :=
  match fs path with
  | Some f => file_stats f
  | None => None
  end.

Definition readFileSync (fs : FileSystem) (path : jsstring) : option jsstring :=
  match fs path with
  | Some f => file_utf8 f
  | None => None
  end.

Definition readline_events (fs : FileSystem) (path : jsstring) : list rl_event :=
  match fs path with
  | Some f => file_events f
  | None => []
  end.

(** A readline interface that delivers [lines] and then closes. *)
Definition complete_scan (lines : list jsstring) : list rl_event :=
  map LineEvent lines ++ [CloseEvent].

(* ================================================================= *)
(** ** Data model *)

(** [{ line, lineNumber }] *)
Record MatchRecord := {
  line : jsstring;
  lineNumber : Z
}.

(** The fields the formatter adds: [{ id, value, formatted }]. *)
Record KeyValue := {
  id : jsstring;
  value : jsstring;
  formatted : jsstring
}.

(** An element of [formattedResults]: the match, spread, with or
    without the added fields. *)
Record FormattedRecord := {
  matched : MatchRecord;
  keyValue : option KeyValue
}.

Record Pagination := {
  page : Z;
  pageSize : Z;
  totalResults : Z;
  totalPages : Z;
  hasNextPage : bool;
  hasPreviousPage : bool
}.

(** The object the promise of [searchFile] resolves with. *)
Record PageResult := {
  results : list FormattedRecord;
  pagination : Pagination
}.

(** The errors the promise rejects with: [new Error(`File not found:
    ${filePath}`)], or the error of the readline interface. *)
Inductive SearchError :=
| FileNotFound (filePath : jsstring)
| IOError (cause : jsstring).

Definition message (e : SearchError) : jsstring :=
  match e with
  | FileNotFound filePath => str "File not found: " ++ filePath
  | IOError cause => cause
  end.

(** A promise settles once: [resolve] and [reject] on a settled promise
    do nothing. *)
Inductive Promise :=
| Pending
| Resolved (v : PageResult)
| Rejected (e : SearchError).

Definition resolve (p : Promise) (v : PageResult) : Promise :=
  match p with
  | Pending => Resolved v
  | _ => p
  end.

Definition reject (p : Promise) (e : SearchError) : Promise :=
  match p with
  | Pending => Rejected e
  | _ => p
  end.

(** The variables the handlers of [searchFile] close over. *)
Record ScanState := {
  st_lineNumber : Z;
  st_results : list MatchRecord
}.

(** The result of [getFileDetails]: [{ exists: false }], the details of
    an existing file, or [{ exists: false, error }]. *)
Inductive FileDetails :=
| NoSuchFile
| Details (size lineCount created lastModified : Z)
| DetailsError.

(** A value of the arguments object of a tool call. *)
Inductive jsvalue :=
| JUndefined
| JString (s : jsstring)
| JInteger (n : Z)
| JOther.

Record ToolArguments := {
  arg_query : jsvalue;
  arg_page : jsvalue;
  arg_pageSize : jsvalue
}.

Record FileSearchArgs := {
  query : jsstring;
  filePage : Z;
  filePageSize : Z
}.

(* ================================================================= *)
(** ** The program *)

(** [FileSearchSchema.parse(args)]: [query] any string; [page] an
    integer at least 1, 1 when absent; [pageSize] an integer from 1 to
    100, 10 when absent.  [None] is a validation error. *)
Definition FileSearchSchema_parse (args : ToolArguments)
  : option FileSearchArgs :=
  match arg_query args with
  | JString q =>
      let page :=
        match arg_page args with
        | JUndefined => Some 1
        | JInteger n => if 1 <=? n then Some n else None
        | _ => None
        end in
      let pageSize :=
        match arg_pageSize args with
        | JUndefined => Some 10
        | JInteger n => if (1 <=? n) && (n <=? 100) then Some n else None
        | _ => None
        end in
      match page, pageSize with
      | Some p, Some ps =>
          Some {| query := q; filePage := p; filePageSize := ps |}
      | _, _ => None
      end
  | _ => None
  end.

(** The body of [paginatedResults.map(...)]: the line is split on runs
    of white space and, with two parts or more, the record gets [id],
    [value] and [formatted]. *)
Definition formatRecord (result : MatchRecord) : FormattedRecord :=
  let parts := split_ws (line result) in
  if 2 <=? Z.of_nat (length parts) then
    let id := nth 0 parts [] in
    let value := join [SPACE] (slice parts 1 None) in
    {| matched := result;
       keyValue := Some {| id := id;
                           value := value;
                           formatted := id ++ [TAB] ++ value |} |}
  else {| matched := result; keyValue := None |}.

(** The handler of ['close']: the page is cut out of [results] and
    formatted, and the pagination block is computed. *)
Definition on_close (page pageSize : Z) (st : ScanState) : PageResult :=
  let results := st_results st in
  let totalResults := Z.of_nat (length results) in
  let totalPages := Math_ceil_div totalResults pageSize in
  let startIndex := (page - 1) * pageSize in
  let endIndex := startIndex + pageSize in
  let paginatedResults := slice results startIndex (Some endIndex) in
  let formattedResults := map formatRecord paginatedResults in
  {| results := formattedResults;
     pagination := {| page := page;
                      pageSize := pageSize;
                      totalResults := totalResults;
                      totalPages := totalPages;
                      hasNextPage := page <? totalPages;
                      hasPreviousPage := 1 <? page |} |}.

Section Engine.

(** [String.prototype.toLowerCase]. *)
Variable toLowerCase : jsstring -> jsstring.

(** [DATA_DIR] and [path.join]. *)
Variable DATA_DIR : jsstring.
Variable path_join : jsstring -> jsstring -> jsstring.

(** The handler of ['line']. *)
Definition on_line (searchTerm : jsstring) (st : ScanState)
  (text : jsstring) : ScanState :=
  let lineNumber := st_lineNumber st + 1 in
  {| st_lineNumber := lineNumber;
     st_results :=
       if includes (toLowerCase text) (toLowerCase searchTerm)
       then st_results st ++ [{| line := text; lineNumber := lineNumber |}]
       else st_results st |}.

(** The events of the readline interface, handled in order. *)
Fixpoint dispatch (searchTerm : jsstring) (page pageSize : Z)
  (events : list rl_event) (st : ScanState) (p : Promise) : Promise :=
  match events with
  | [] => p
  | LineEvent text :: events' =>
      dispatch searchTerm page pageSize events' (on_line searchTerm st text) p
  | CloseEvent :: events' =>
      dispatch searchTerm page pageSize events' st
        (resolve p (on_close page pageSize st))
  | ErrorEvent cause :: events' =>
      dispatch searchTerm page pageSize events' st (reject p (IOError cause))
  end.

(** [searchFile] once [searchTerm] has been normalized: the body of
    the promise.  (Every call of the program passes [page] and
    [pageSize], so their default values play no part.) *)
Definition searchFile_normalized (fs : FileSystem)
  (filePath searchTerm : jsstring) (page pageSize : Z) : Promise :=
  if negb (existsSync fs filePath) then
    reject Pending (FileNotFound filePath)
  else
    dispatch searchTerm page pageSize (readline_events fs filePath)
      {| st_lineNumber := 0; st_results := [] |} Pending.

(** [searchFile(filePath, searchTerm, page, pageSize)]: the promise it
    returns, once the events of the file have been handled. *)
Definition searchFile (fs : FileSystem) (filePath searchTerm : jsstring)
  (page pageSize : Z) : Promise :=
  let searchTerm := replace searchTerm [SPACE] [UNDERSCORE] in
  searchFile_normalized fs filePath searchTerm page pageSize.

(** The array [results] when the scan has read [lines]. *)
Definition scan (searchTerm : jsstring) (lines : list jsstring)
  : list MatchRecord :=
  st_results
    (fold_left (on_line (replace searchTerm [SPACE] [UNDERSCORE])) lines
       {| st_lineNumber := 0; st_results := [] |}).

(** [getFileLineCount]: the number of pieces of the content between
    newlines, and 0 when reading throws. *)
Definition getFileLineCount (fs : FileSystem) (filePath : jsstring) : Z :=
  match readFileSync fs filePath with
  | Some content => Z.of_nat (length (split NEWLINE content))
  | None => 0
  end.

(** [getFileDetails]: an exception of [statSync] is caught and
    reported as an error object. *)
Definition getFileDetails (fs : FileSystem) (filename : jsstring)
  : FileDetails :=
  let filePath := path_join DATA_DIR filename in
  if negb (existsSync fs filePath) then NoSuchFile
  else
    match statSync fs filePath with
    | Some stats =>
        let lineCount := getFileLineCount fs filePath in
        Details (size stats) lineCount (birthtime stats) (mtime stats)
    | None => DetailsError
    end.

End Engine.

(* ================================================================= *)
(** ** The specification's own notions *)

(** The white-space separated tokens of a line: its maximal runs of
    code units that are not white space. *)
Fixpoint tokens (s : jsstring) : list jsstring :=
  match s with
  | [] => []
  | c :: s' =>
      if isWhiteSpace c then tokens s'
      else match s' with
           | d :: _ =>
               if isWhiteSpace d then [c] :: tokens s'
               else match tokens s' with
                    | t :: ts => (c :: t) :: ts
                    | [] => [[c]]
                    end
           | [] => [[c]]
           end
  end.

(** [sub] is a substring of [s]. *)
Definition substring (sub s : jsstring) : Prop :=
  exists pre post, s = pre ++ sub ++ post.

(** The record of a numbered line. *)
Definition record_of (nl : Z * jsstring) : MatchRecord :=
  {| line := snd nl; lineNumber := fst nl |}.

(** The lines with their numbers, the first line numbered [k + 1]. *)
Definition numbered_from (k : nat) (lines : list jsstring)
  : list (Z * jsstring) :=
  combine (map Z.of_nat (seq (S k) (length lines))) lines.

(** The lines of a file with their 1-based numbers. *)
Definition numbered (lines : list jsstring) : list (Z * jsstring) :=
  numbered_from 0 lines.

(** The lower-case form of the line contains the lower-case form of the
    term. *)
Definition accepts (toLowerCase : jsstring -> jsstring) (term : jsstring)
  (nl : Z * jsstring) : bool :=
  includes (toLowerCase (snd nl)) (toLowerCase term).

(** The Line Scanner of the specification: the records of the numbered
    lines that contain the term, in the order of the file. *)
Definition matching_lines (toLowerCase : jsstring -> jsstring)
  (term : jsstring) (lines : list jsstring) : list MatchRecord :=
  map record_of (filter (accepts toLowerCase term) (numbered lines)).

(** The smallest number of pages of [s] items that hold [n] items. *)
Definition ceil_quotient (n s : Z) : Z := (n + s - 1) / s.

(** The Paginator of the specification, for [page] and [pageSize] at
    least 1: the items [(page-1)*pageSize] up to
    [(page-1)*pageSize + pageSize] and the pagination block. *)
Definition Paginator {A : Type} (all : list A) (page pageSize : Z)
  : list A * Pagination :=
  let totalResults := Z.of_nat (length all) in
  let totalPages := ceil_quotient totalResults pageSize in
  (firstn (Z.to_nat pageSize) (skipn (Z.to_nat ((page - 1) * pageSize)) all),
   {| page := page;
      pageSize := pageSize;
      totalResults := totalResults;
      totalPages := totalPages;
      hasNextPage := page <? totalPages;
      hasPreviousPage := 1 <? page |}).

(** The composition the specification gives for the engine: every match
    goes through the formatter, and the formatted list is paginated. *)
Definition format_then_paginate (matches : list MatchRecord)
  (page pageSize : Z) : PageResult :=
  let '(selected, block) := Paginator (map formatRecord matches) page pageSize in
  {| results := selected; pagination := block |}.

(** The slice of page [p]. *)
Definition page_slice {A : Type} (matches : list A) (pageSize p : Z)
  : list A :=
  slice matches ((p - 1) * pageSize) (Some ((p - 1) * pageSize + pageSize)).

(** The pages [1 .. n]. *)
Definition pages (n : Z) : list Z :=
  map Z.of_nat (seq 1 (Z.to_nat n)).

(** The number of occurrences of the code unit [c] in [s]. *)
Definition occurrences (c : char) (s : jsstring) : nat :=
  length (filter (N.eqb c) s).

(** The line starts, or ends, with white space. *)
Definition starts_ws (s : jsstring) : bool :=
  match s with
  | c :: _ => isWhiteSpace c
  | [] => false
  end.

Definition ends_ws (s : jsstring) : bool :=
  match s with
  | [] => false
  | _ :: _ => isWhiteSpace (last s 0%N)
  end.

(** The position in the match list of item [i] of page [p]. *)
Definition page_position (pageSize p : Z) (i : nat) : nat :=
  (Z.to_nat ((p - 1) * pageSize) + i)%nat.

(* ================================================================= *)
(** ** Sample data *)

Fixpoint jsstring_eqb (a b : jsstring) : bool :=
  match a, b with
  | [], [] => true
  | c :: a', d :: b' => (c =? d)%N && jsstring_eqb a' b'
  | _, _ => false
  end.

Definition sample_lines : list jsstring :=
  [str "100 Dragon scimitar"; str "101 Dragon longsword"; str "200 Iron dagger"].

Definition sample_file : File :=
  {| file_stats := Some {| size := 57; birthtime := 1700000000; mtime := 1700000500 |};
     file_utf8 := Some (concat (map (fun l => l ++ [NEWLINE]) sample_lines));
     file_events := complete_scan sample_lines |}.

Definition sample_DATA_DIR : jsstring := str "data".

Definition sample_path_join (dir name : jsstring) : jsstring :=
  dir ++ str "/" ++ name.

Definition sample_path : jsstring := str "data/objtypes.txt".

(** A data directory that holds one file. *)
Definition sample_fs : FileSystem :=
  fun path => if jsstring_eqb path sample_path then Some sample_file else None.

(** The matches of "dragon" in the sample file. *)
Definition sample_matches : list MatchRecord :=
  [{| line := str "100 Dragon scimitar"; lineNumber := 1 |};
   {| line := str "101 Dragon longsword"; lineNumber := 2 |}].

(** The state of the scan of the sample file for "dragon" at ['close']. *)
Definition sample_state : ScanState :=
  {| st_lineNumber := 3; st_results := sample_matches |}.

(* ================================================================= *)
(** ** The tools of the server *)

(** [s.endsWith(suffix)]. *)
Definition endsWith (s suffix : jsstring) : bool :=
  let start := Z.of_nat (length s) - Z.of_nat (length suffix) in
  if start <? 0 then false
  else jsstring_eqb (skipn (Z.to_nat start) s) suffix.

(** [fs.readdirSync(dir)]: the names in a directory, [None] when the
    call throws. *)
Definition Directories := jsstring -> option (list jsstring).

(** The arguments object of a tool call, field by field. *)
Record CallArguments := {
  call_filename : jsvalue;
  call_query : jsvalue;
  call_page : jsvalue;
  call_pageSize : jsvalue;
  call_fileType : jsvalue
}.

Definition search_arguments (args : CallArguments) : ToolArguments :=
  {| arg_query := call_query args;
     arg_page := call_page args;
     arg_pageSize := call_pageSize args |}.

(** [GenericFileSearchSchema.parse(args)]: [FileSearchSchema] with a
    [filename] that has to be a string. *)
Definition GenericFileSearchSchema_parse (args : CallArguments)
  : option (jsstring * FileSearchArgs) :=
  match call_filename args with
  | JString filename =>
      match FileSearchSchema_parse (search_arguments args) with
      | Some parsed => Some (filename, parsed)
      | None => None
      end
  | _ => None
  end.

(** [FileDetailsSchema.parse(args)]. *)
Definition FileDetailsSchema_parse (args : CallArguments) : option jsstring :=
  match call_filename args with
  | JString filename => Some filename
  | _ => None
  end.

(** [ListDataFilesSchema.parse(args)]: [fileType] is an optional
    string. *)
Definition ListDataFilesSchema_parse (args : CallArguments)
  : option (option jsstring) :=
  match call_fileType args with
  | JUndefined => Some None
  | JString fileType => Some (Some fileType)
  | _ => None
  end.

(** The object a file tool hands to [responseToString]. *)
Inductive ToolResponse :=
| SearchResponse (found : PageResult)
| ErrorResponse (error : jsstring)
| DetailsResponse (details : FileDetails)
| FilesResponse (files : list jsstring) (path : jsstring).

(** An error thrown inside the [try] block that is not a [ZodError]:
    a rejection of [searchFile], [new Error('Invalid filename')] or
    [new Error(`Unknown tool: ${name}`)]. *)
Inductive ToolError :=
| SearchFailed (e : SearchError)
| InvalidFilename
| UnknownTool (name : jsstring).

(** [err.message]. *)
Definition error_message (err : ToolError) : jsstring :=
  match err with
  | SearchFailed e => message e
  | InvalidFilename => str "Invalid filename"
  | UnknownTool name => str "Unknown tool: " ++ name
  end.

(** What the [catch] block receives: a validation error of a schema, or
    another error. *)
Inductive Caught :=
| ZodError
| PlainError (err : ToolError).

(** The error the [catch] block throws: for a [ZodError] the "Invalid
    arguments" error, for another error the error that names the tool
    and repeats the message. *)
Inductive Thrown :=
| InvalidArguments
| ExecutionError (tool : jsstring) (err : ToolError).

(** The message of the error that is thrown.  (The details that zod
    adds after "Invalid arguments: " are left out.) *)
Definition thrown_message (thrown : Thrown) : jsstring :=
  match thrown with
  | InvalidArguments => str "Invalid arguments: "
  | ExecutionError tool err =>
      str "Error executing tool " ++ tool ++ str ": " ++ error_message err
  end.

(** How a tool call ends: with a response, with the error its [catch]
    block throws, or not at all while the promise of [searchFile] is
    pending. *)
Inductive ToolOutcome :=
| Returned (response : ToolResponse)
| Threw (thrown : Thrown)
| Waiting.

(** The [catch] block of the handler of the tool [name]. *)
Definition rethrow (name : jsstring) (caught : Caught) : ToolOutcome :=
  match caught with
  | ZodError => Threw InvalidArguments
  | PlainError err => Threw (ExecutionError name err)
  end.

(** The outcome [o] when the call is made under the tool [name]: the
    error of an execution names that tool. *)
Definition under_tool (name : jsstring) (o : ToolOutcome) : ToolOutcome :=
  match o with
  | Threw (ExecutionError _ err) => Threw (ExecutionError name err)
  | _ => o
  end.

(** The tools that forward to the wiki. *)
Definition wiki_tools : list jsstring :=
  [str "osrs_wiki_search"; str "osrs_wiki_get_page_info";
   str "osrs_wiki_parse_page"].

(** The tools that search one data file each. *)
Definition file_search_tools : list jsstring :=
  [str "search_varptypes"; str "search_varbittypes"; str "search_iftypes";
   str "search_invtypes"; str "search_loctypes"; str "search_npctypes";
   str "search_objtypes"; str "search_rowtypes"; str "search_seqtypes";
   str "search_soundtypes"; str "search_spottypes"; str "search_spritetypes";
   str "search_tabletypes"].

(** The check against directory traversal. *)
Definition traverses (filename : jsstring) : bool :=
  includes filename (str "..") || includes filename (str "/")
  || includes filename (str "\").

(** [await] of the promise of [searchFile] inside the handler of the
    tool [name]: a rejection is thrown and caught. *)
Definition await (name : jsstring) (p : Promise) : ToolOutcome :=
  match p with
  | Resolved v => Returned (SearchResponse v)
  | Rejected e => rethrow name (PlainError (SearchFailed e))
  | Pending => Waiting
  end.

Section Server.

Variable toLowerCase : jsstring -> jsstring.
Variable DATA_DIR : jsstring.
Variable path_join : jsstring -> jsstring -> jsstring.

(** The three wiki tools, which go through the HTTP client. *)
Variable wiki : jsstring -> option CallArguments -> ToolOutcome.

Definition fileExists (fs : FileSystem) (filename : jsstring) : bool :=
  existsSync fs (path_join DATA_DIR filename).

(** [listDataFiles(fileType)]: a [fileType] that is absent or empty
    does not filter, and an exception of [readdirSync] gives no file. *)
Definition listDataFiles (dirs : Directories) (fileType : option jsstring)
  : list jsstring :=
  match dirs DATA_DIR with
  | Some files =>
      match fileType with
      | Some (c :: rest) =>
          filter (fun file => endsWith file (str "." ++ c :: rest)) files
      | _ => files
      end
  | None => []
  end.

(** The file part of a search: the existence check of the handler,
    then [searchFile]. *)
Definition search_data (fs : FileSystem) (name filename : jsstring)
  (parsed : FileSearchArgs) : ToolOutcome :=
  if negb (fileExists fs filename) then
    Returned (ErrorResponse (filename ++ str " not found in data directory"))
  else
    await name
      (searchFile toLowerCase fs (path_join DATA_DIR filename)
         (query parsed) (filePage parsed) (filePageSize parsed)).

(** The handler of a tool call: the [switch] on the name, inside
    [try]/[catch].  A call without arguments fails the validation of
    every file tool. *)
Definition callTool (fs : FileSystem) (dirs : Directories)
  (name : jsstring) (args : option CallArguments) : ToolOutcome :=
  if existsb (jsstring_eqb name) wiki_tools then wiki name args
  else if existsb (jsstring_eqb name) file_search_tools then
    match args with
    | Some a =>
        match FileSearchSchema_parse (search_arguments a) with
        | Some parsed =>
            let filename := replace name (str "search_") [] ++ str ".txt" in
            search_data fs name filename parsed
        | None => rethrow name ZodError
        end
    | None => rethrow name ZodError
    end
  else if jsstring_eqb name (str "search_data_file") then
    match args with
    | Some a =>
        match GenericFileSearchSchema_parse a with
        | Some (genericFilename, parsed) =>
            if traverses genericFilename
            then rethrow name (PlainError InvalidFilename)
            else search_data fs name genericFilename parsed
        | None => rethrow name ZodError
        end
    | None => rethrow name ZodError
    end
  else if jsstring_eqb name (str "get_file_details") then
    match args with
    | Some a =>
        match FileDetailsSchema_parse a with
        | Some detailsFilename =>
            if traverses detailsFilename
            then rethrow name (PlainError InvalidFilename)
            else Returned (DetailsResponse
                             (getFileDetails DATA_DIR path_join fs
                                detailsFilename))
        | None => rethrow name ZodError
        end
    | None => rethrow name ZodError
    end
  else if jsstring_eqb name (str "list_data_files") then
    match args with
    | Some a =>
        match ListDataFilesSchema_parse a with
        | Some fileType =>
            Returned (FilesResponse (listDataFiles dirs fileType) DATA_DIR)
        | None => rethrow name ZodError
        end
    | None => rethrow name ZodError
    end
  else rethrow name (PlainError (UnknownTool name)).

End Server.

(** The files of the sample data directory. *)
Definition sample_dirs : Directories :=
  fun dir =>
    if jsstring_eqb dir sample_DATA_DIR
    then Some [str "objtypes.txt"; str "npctypes.txt"; str "notes.md"]
    else None.

(** The wiki does not answer the sample server. *)
Definition sample_wiki (name : jsstring) (args : option CallArguments)
  : ToolOutcome :=
  Waiting.

(** The arguments [{ query: "dragon" }]. *)
Definition sample_call : CallArguments :=
  {| call_filename := JUndefined;
     call_query := JString (str "dragon");
     call_page := JUndefined;
     call_pageSize := JUndefined;
     call_fileType := JUndefined |}.

(** The arguments [args] with the field [filename] set. *)
Definition with_filename (args : CallArguments) (filename : jsstring)
  : CallArguments :=
  {| call_filename := JString filename;
     call_query := call_query args;
     call_page := call_page args;
     call_pageSize := call_pageSize args;
     call_fileType := call_fileType args |}.

(** A file whose stream fails after its first line. *)
Definition sample_broken_file : File :=
  {| file_stats := None;
     file_utf8 := None;
     file_events := map LineEvent [str "100 Dragon scimitar"]
                    ++ ErrorEvent (str "EIO: i/o error")
                       :: [LineEvent (str "101 Dragon longsword"); CloseEvent] |}.

Definition sample_broken_fs : FileSystem :=
  fun path =>
    if jsstring_eqb path sample_path then Some sample_broken_file else None.

(** A file whose readline interface goes on after its ['close']. *)
Definition sample_noisy_file : File :=
  {| file_stats := None;
     file_utf8 := None;
     file_events := map LineEvent sample_lines
                    ++ CloseEvent
                       :: [LineEvent (str "300 Dragon dagger");
                           ErrorEvent (str "late")] |}.

Definition sample_noisy_fs : FileSystem :=
  fun path =>
    if jsstring_eqb path sample_path then Some sample_noisy_file else None.

(** The first record of the sample file, formatted. *)
Definition sample_keyValue : KeyValue :=
  {| id := str "100";
     value := str "Dragon scimitar";
     formatted := str "100" ++ [TAB] ++ str "Dragon scimitar" |}.

(** Every run of white space of the line is one space. *)
Fixpoint single_spaced (s : jsstring) : bool :=
  match s with
  | [] => true
  | c :: s' =>
      (if isWhiteSpace c then (c =? SPACE)%N && negb (starts_ws s') else true)
      && single_spaced s'
  end.

(** The record [r] when [k] lines come before its file. *)
Definition shift_record (k : nat) (r : MatchRecord) : MatchRecord :=
  {| line := line r; lineNumber := lineNumber r + Z.of_nat k |}.

(* ================================================================= *)
(** ** Facts about the built-ins *)

Lemma startsWith_app (sub post : jsstring) :
  startsWith (sub ++ post) sub = true.
Proof.
  induction sub as [|c sub IH]; simpl; [reflexivity|].
  now rewrite N.eqb_refl, IH.
Qed.

Lemma startsWith_inv (s sub : jsstring) :
  startsWith s sub = true -> exists post, s = sub ++ post.
Proof.
  revert s; induction sub as [|c sub IH]; intros s H.
  - now exists s.
  - destruct s as [|d s]; simpl in H; [discriminate|].
    apply andb_true_iff in H as [Hc Hs].
    apply N.eqb_eq in Hc; subst d.
    destruct (IH _ Hs) as [post ->].
    now exists post.
Qed.

(** [includes] decides [substring]. *)
Lemma includes_substring (s sub : jsstring) :
  includes s sub = true <-> substring sub s.
Proof.
  split.
  - induction s as [|d s IH]; simpl; intros H.
    + rewrite orb_false_r in H.
      destruct (startsWith_inv _ _ H) as [post ->].
      now exists [], post.
    + apply orb_true_iff in H as [H|H].
      * destruct (startsWith_inv _ _ H) as [post E].
        exists [], post. exact E.
      * destruct (IH H) as (pre & post & ->).
        now exists (d :: pre), post.
  - intros (pre & post & ->).
    induction pre as [|d pre IH]; simpl.
    + pose proof (startsWith_app sub post) as H.
      destruct (sub ++ post); simpl; now rewrite H.
    + rewrite IH. apply orb_true_r.
Qed.

Lemma includes_empty (s : jsstring) : includes s [] = true.
Proof. destruct s; reflexivity. Qed.

Lemma replace_char_cons (a b c : char) (s : jsstring) :
  replace (c :: s) [a] [b]
  = if (a =? c)%N then b :: s else c :: replace s [a] [b].
Proof.
  cbn [replace startsWith skipn length app].
  now rewrite andb_true_r.
Qed.

(** A string without space is left as it is. *)
Lemma replace_space_none (s : jsstring) :
  ~ In SPACE s -> replace s [SPACE] [UNDERSCORE] = s.
Proof.
  induction s as [|c s IH]; intros Hn; [reflexivity|].
  rewrite replace_char_cons.
  destruct (N.eqb_spec SPACE c) as [E|E].
  - exfalso. apply Hn. left. now symmetry.
  - f_equal. apply IH. intros H. apply Hn. now right.
Qed.

(** The first space, and only it, becomes an underscore. *)
Lemma replace_space_first (pre post : jsstring) :
  ~ In SPACE pre ->
  replace (pre ++ SPACE :: post) [SPACE] [UNDERSCORE]
  = pre ++ UNDERSCORE :: post.
Proof.
  induction pre as [|c pre IH]; intros Hn.
  - cbn [app]. rewrite replace_char_cons. now rewrite N.eqb_refl.
  - cbn [app]. rewrite replace_char_cons.
    destruct (N.eqb_spec SPACE c) as [E|E].
    + exfalso. apply Hn. left. now symmetry.
    + f_equal. apply IH. intros H. apply Hn. now right.
Qed.

Lemma split_nonempty (sep : char) (s : jsstring) : split sep s <> [].
Proof.
  induction s as [|c s IH]; simpl; [discriminate|].
  destruct (c =? sep)%N; [discriminate|].
  destruct (split sep s); discriminate.
Qed.

(** One piece more than there are separators. *)
Lemma split_length (sep : char) (s : jsstring) :
  length (split sep s) = S (occurrences sep s).
Proof.
  unfold occurrences.
  induction s as [|c s IH]; simpl; [reflexivity|].
  rewrite (N.eqb_sym sep c).
  destruct (c =? sep)%N; simpl.
  - now rewrite IH.
  - rewrite <- IH.
    pose proof (split_nonempty sep s).
    destruct (split sep s); [contradiction|reflexivity].
Qed.



Lemma occurrences_app (c : char) (s t : jsstring) :
  occurrences c (s ++ t) = (occurrences c s + occurrences c t)%nat.
Proof. unfold occurrences. now rewrite filter_app, length_app. Qed.

Lemma occurrences_self (c : char) : occurrences c [c] = 1%nat.
Proof. unfold occurrences. simpl. now rewrite N.eqb_refl. Qed.

(** After a final separator comes an empty last piece. *)
Lemma split_last_empty (sep : char) (body : jsstring) :
  last (split sep (body ++ [sep])) [] = [].
Proof.
  induction body as [|c body IH]; simpl.
  - now rewrite N.eqb_refl.
  - pose proof (split_length sep (body ++ [sep])) as L.
    rewrite occurrences_app, occurrences_self in L.
    destruct (split sep (body ++ [sep])) as [|p [|q ps]];
      simpl in L; try lia.
    destruct (c =? sep)%N; exact IH.
Qed.

Lemma split_ws_nonempty (s : jsstring) : split_ws s <> [].
Proof.
  induction s as [|c s IH]; simpl; [discriminate|].
  destruct (isWhiteSpace c).
  - destruct s as [|d s]; [discriminate|].
    destruct (isWhiteSpace d); [exact IH|discriminate].
  - destruct (split_ws s); discriminate.
Qed.

Lemma tokens_nonempty (d : char) (s : jsstring) :
  isWhiteSpace d = false -> tokens (d :: s) <> [].
Proof.
  intros Hd. simpl. rewrite Hd.
  destruct s as [|e s]; [discriminate|].
  destruct (isWhiteSpace e); [discriminate|].
  destruct (tokens (e :: s)); discriminate.
Qed.

Lemma ends_ws_cons (c d : char) (s : jsstring) :
  ends_ws (c :: d :: s) = ends_ws (d :: s).
Proof. reflexivity. Qed.

(** The two equations of [split(/\s+/)]: a string without white space
    is one part, and the part before the first run of white space is
    cut off, the whole run being dropped. *)
Lemma split_ws_no_ws (p : jsstring) :
  forallb (fun c => negb (isWhiteSpace c)) p = true -> split_ws p = [p].
Proof.
  induction p as [|c p IH]; intros Hp; [reflexivity|].
  cbn [forallb] in Hp. apply andb_true_iff in Hp as [Hc Hp].
  apply negb_true_iff in Hc.
  cbn [split_ws]. rewrite Hc, IH by assumption. reflexivity.
Qed.

Lemma split_ws_run (run rest : jsstring) :
  run <> [] ->
  forallb isWhiteSpace run = true ->
  starts_ws rest = false ->
  split_ws (run ++ rest) = [] :: split_ws rest.
Proof.
  intros Hne Hrun Hrest.
  induction run as [|c run IH]; [contradiction|].
  cbn [forallb] in Hrun. apply andb_true_iff in Hrun as [Hc Hrun].
  destruct run as [|d run].
  - cbn [app split_ws]. rewrite Hc.
    destruct rest as [|e rest]; [reflexivity|].
    cbn [starts_ws] in Hrest. now rewrite Hrest.
  - specialize (IH ltac:(discriminate) Hrun).
    pose proof Hrun as Hd. cbn [forallb] in Hd.
    apply andb_true_iff in Hd as [Hd _].
    change ((c :: d :: run) ++ rest) with (c :: d :: (run ++ rest)).
    change (split_ws (c :: d :: (run ++ rest))) with
      (if isWhiteSpace c then
         if isWhiteSpace d then split_ws (d :: (run ++ rest))
         else [] :: split_ws (d :: (run ++ rest))
       else match split_ws (d :: (run ++ rest)) with
            | p :: ps => (c :: p) :: ps
            | [] => [[c]]
            end).
    rewrite Hc, Hd. exact IH.
Qed.

Lemma split_ws_at_run (p run rest : jsstring) :
  forallb (fun c => negb (isWhiteSpace c)) p = true ->
  run <> [] ->
  forallb isWhiteSpace run = true ->
  starts_ws rest = false ->
  split_ws (p ++ run ++ rest) = p :: split_ws rest.
Proof.
  intros Hp Hne Hrun Hrest.
  induction p as [|c p IH].
  - exact (split_ws_run run rest Hne Hrun Hrest).
  - cbn [forallb] in Hp. apply andb_true_iff in Hp as [Hc Hp].
    apply negb_true_iff in Hc.
    cbn [app split_ws]. rewrite Hc, IH by assumption. reflexivity.
Qed.


(** The parts of [split(/\s+/)] of a line that is not empty are the
    tokens of the line, after an
    empty part when the line starts with white space and before an
    empty part when it ends with white space. *)
Lemma split_ws_tokens (s : jsstring) :
  s <> [] ->
  split_ws s
  = (if starts_ws s then [[]] else []) ++ tokens s
    ++ (if ends_ws s then [[]] else []).
Proof.
  induction s as [|c s IH]; intros Hne; [contradiction|].
  destruct s as [|d s].
  - simpl. destruct (isWhiteSpace c); reflexivity.
  - specialize (IH ltac:(discriminate)).
    rewrite ends_ws_cons.
    set (tl_ := d :: s) in *.
    change (split_ws (c :: tl_)) with
      (if isWhiteSpace c then
         if isWhiteSpace d then split_ws tl_ else [] :: split_ws tl_
       else match split_ws tl_ with
            | p :: ps => (c :: p) :: ps
            | [] => [[c]]
            end).
    change (tokens (c :: tl_)) with
      (if isWhiteSpace c then tokens tl_
       else if isWhiteSpace d then [c] :: tokens tl_
            else match tokens tl_ with
                 | t :: ts => (c :: t) :: ts
                 | [] => [[c]]
                 end).
    change (starts_ws (c :: tl_)) with (isWhiteSpace c).
    change (starts_ws tl_) with (isWhiteSpace d) in IH.
    rewrite IH.
    destruct (isWhiteSpace c) eqn:Hc, (isWhiteSpace d) eqn:Hd;
      try reflexivity.
    pose proof (tokens_nonempty d s Hd) as Ht. fold tl_ in Ht.
    destruct (tokens tl_); [contradiction|reflexivity].
Qed.

(** There are two parts or more exactly when the line has a white-space
    code unit. *)
Lemma split_ws_two_parts (s : jsstring) :
  (2 <=? Z.of_nat (length (split_ws s))) = existsb isWhiteSpace s.
Proof.
  induction s as [|c s IH]; [reflexivity|].
  pose proof (split_ws_nonempty s) as Hne.
  destruct s as [|d s].
  - simpl. destruct (isWhiteSpace c); reflexivity.
  - set (tl_ := d :: s) in *.
    change (split_ws (c :: tl_)) with
      (if isWhiteSpace c then
         if isWhiteSpace d then split_ws tl_ else [] :: split_ws tl_
       else match split_ws tl_ with
            | p :: ps => (c :: p) :: ps
            | [] => [[c]]
            end).
    change (existsb isWhiteSpace (c :: tl_)) with
      (isWhiteSpace c || existsb isWhiteSpace tl_).
    change (existsb isWhiteSpace tl_) with
      (isWhiteSpace d || existsb isWhiteSpace s) in *.
    destruct (isWhiteSpace c) eqn:Hc; cbn [orb].
    + destruct (isWhiteSpace d) eqn:Hd.
      * exact IH.
      * destruct (split_ws tl_); [contradiction|].
        cbn [length]. apply Z.leb_le. lia.
    + rewrite <- IH.
      destruct (split_ws tl_); [contradiction|reflexivity].
Qed.

(** [parts.slice(1)] drops the first part. *)
Lemma slice_1 {A : Type} (l : list A) : slice l 1 None = tl l.
Proof.
  destruct l as [|x l]; [reflexivity|].
  unfold slice. change (1 <? 0) with false. cbv iota.
  assert (E1 : Z.to_nat (Z.min 1 (Z.of_nat (length (x :: l)))) = 1%nat)
    by (cbn [length]; lia).
  assert (E2 : Z.to_nat (Z.max (Z.of_nat (length (x :: l))
                                - Z.min 1 (Z.of_nat (length (x :: l)))) 0)
               = length l)
    by (cbn [length]; lia).
  rewrite E1, E2. apply firstn_all.
Qed.

(** [formatRecord] in terms of the parts of the line. *)
Lemma formatRecord_parts (r : MatchRecord) :
  formatRecord r
  = match split_ws (line r) with
    | first :: (_ :: _) as rest =>
        {| matched := r;
           keyValue := Some {| id := first;
                               value := join [SPACE] rest;
                               formatted := first ++ [TAB] ++ join [SPACE] rest |} |}
    | _ => {| matched := r; keyValue := None |}
    end.
Proof.
  unfold formatRecord. rewrite slice_1.
  destruct (split_ws (line r)) as [|p [|q ps]]; try reflexivity.
  replace (2 <=? Z.of_nat (length (p :: q :: ps))) with true; [reflexivity|].
  symmetry. apply Z.leb_le. cbn [length]. lia.
Qed.

(* ================================================================= *)
(** ** Facts about [slice] and [Math.ceil] *)

(** With indices that are not negative, [slice] is a window of the
    list. *)
Lemma slice_window {A : Type} (l : list A) (a n : Z) :
  0 <= a -> 0 <= n ->
  slice l a (Some (a + n)) = firstn (Z.to_nat n) (skipn (Z.to_nat a) l).
Proof.
  intros Ha Hn. unfold slice.
  destruct (Z.ltb_spec a 0) as [?|_]; [lia|].
  destruct (Z.ltb_spec (a + n) 0) as [?|_]; [lia|].
  set (len := Z.of_nat (length l)).
  destruct (Z.le_gt_cases len a) as [Hbig|Hsmall].
  - rewrite (skipn_all2 (n := Z.to_nat a)) by (unfold len in Hbig; lia).
    rewrite (skipn_all2 (n := Z.to_nat (Z.min a len)))
      by (unfold len in *; lia).
    now rewrite !firstn_nil.
  - replace (Z.min a len) with a by lia.
    set (rest := skipn (Z.to_nat a) l).
    assert (Hrest : length rest = Z.to_nat (len - a)).
    { unfold rest, len. rewrite length_skipn. lia. }
    destruct (Z.le_gt_cases (len - a) n) as [Hall|Hpart].
    + rewrite !firstn_all2; [reflexivity|lia|lia].
    + f_equal. lia.
Qed.

Lemma slice_nil {A : Type} (a : Z) (e : option Z) :
  slice (@nil A) a e = [].
Proof. unfold slice. now rewrite skipn_nil, firstn_nil. Qed.

Lemma slice_map {A B : Type} (f : A -> B) (l : list A) (a : Z)
  (e : option Z) :
  slice (map f l) a e = map f (slice l a e).
Proof.
  unfold slice. now rewrite length_map, skipn_map, firstn_map.
Qed.

Lemma firstn_add {A : Type} (a b : nat) (l : list A) :
  firstn (a + b) l = firstn a l ++ firstn b (skipn a l).
Proof.
  revert l; induction a as [|a IH]; intros l; [reflexivity|].
  destruct l as [|x l]; simpl.
  - now rewrite firstn_nil.
  - now rewrite IH.
Qed.

(** The rational that [Math.ceil] rounds. *)
Lemma Math_ceil_div_pos (a : Z) (p : positive) :
  Math_ceil_div a (Z.pos p) = - (- a / Z.pos p).
Proof.
  unfold Math_ceil_div, Qceiling, Qfloor, Qdiv, Qinv, Qmult, Qopp, inject_Z.
  cbn [Qnum Qden]. now rewrite Z.mul_1_r.
Qed.

(** [Math.ceil(a / b)] is the least integer [q] with [a <= q * b]. *)
Lemma Math_ceil_div_bounds (a b : Z) :
  0 < b ->
  (Math_ceil_div a b - 1) * b < a <= Math_ceil_div a b * b.
Proof.
  intros Hb. destruct b as [|p|p]; try lia.
  rewrite Math_ceil_div_pos.
  pose proof (Z.mul_div_le (- a) (Z.pos p) ltac:(lia)).
  pose proof (Z.mul_succ_div_gt (- a) (Z.pos p) ltac:(lia)).
  lia.
Qed.

Lemma ceiling_unique (a b q q' : Z) :
  0 < b ->
  (q - 1) * b < a <= q * b ->
  (q' - 1) * b < a <= q' * b ->
  q = q'.
Proof. intros Hb H H'. nia. Qed.

Lemma ceil_quotient_bounds (a b : Z) :
  0 < b ->
  (ceil_quotient a b - 1) * b < a <= ceil_quotient a b * b.
Proof.
  intros Hb. unfold ceil_quotient.
  pose proof (Z.mul_div_le (a + b - 1) b Hb).
  pose proof (Z.mul_succ_div_gt (a + b - 1) b Hb).
  lia.
Qed.

Lemma Math_ceil_div_quotient (a b : Z) :
  0 < b -> Math_ceil_div a b = ceil_quotient a b.
Proof.
  intros Hb.
  apply (ceiling_unique a b); auto using Math_ceil_div_bounds,
    ceil_quotient_bounds.
Qed.

Lemma Math_ceil_div_0 (b : Z) : 0 < b -> Math_ceil_div 0 b = 0.
Proof.
  intros Hb. pose proof (Math_ceil_div_bounds 0 b Hb). nia.
Qed.

(* ================================================================= *)
(** ** The scan *)

Section Scan.

Variable toLowerCase : jsstring -> jsstring.

(** The state after the ['line'] events of [lines], from any state. *)
Lemma fold_on_line (term : jsstring) (lines : list jsstring) :
  forall (k : nat) (acc : list MatchRecord),
    fold_left (on_line toLowerCase term) lines
      {| st_lineNumber := Z.of_nat k; st_results := acc |}
    = {| st_lineNumber := Z.of_nat (k + length lines);
         st_results :=
           acc ++ map record_of (filter (accepts toLowerCase term) (numbered_from k lines)) |}.
Proof.
  induction lines as [|l lines IH]; intros k acc.
  - cbn. now rewrite Nat.add_0_r, app_nil_r.
  - cbn [fold_left]. unfold on_line at 2. cbn [st_lineNumber st_results].
    replace (Z.of_nat k + 1) with (Z.of_nat (S k)) by lia.
    rewrite IH.
    replace (S k + length lines)%nat with (k + length (l :: lines))%nat
      by (cbn [length]; lia).
    f_equal.
    unfold numbered_from. cbn [length seq map combine filter].
    unfold accepts at 2. cbn [snd].
    destruct (includes (toLowerCase l) (toLowerCase term)).
    + now rewrite <- app_assoc.
    + reflexivity.
Qed.

Lemma scan_matching_lines (term : jsstring) (lines : list jsstring) :
  scan toLowerCase term lines
  = matching_lines toLowerCase (replace term [SPACE] [UNDERSCORE]) lines.
Proof.
  unfold scan.
  change 0 with (Z.of_nat 0).
  now rewrite fold_on_line.
Qed.

Lemma scan_lineNumber (term : jsstring) (lines : list jsstring) :
  fold_left (on_line toLowerCase term) lines
    {| st_lineNumber := 0; st_results := [] |}
  = {| st_lineNumber := Z.of_nat (length lines);
       st_results := matching_lines toLowerCase term lines |}.
Proof.
  change 0 with (Z.of_nat 0).
  now rewrite fold_on_line.
Qed.

(** A record is found exactly for a line that contains the term, and it
    carries the 1-based number of that line. *)
Lemma In_matching_from (term : jsstring) (lines : list jsstring) :
  forall (k : nat) (r : MatchRecord),
    In r (map record_of (filter (accepts toLowerCase term) (numbered_from k lines)))
    <-> exists i : nat,
        nth_error lines i = Some (line r)
        /\ lineNumber r = Z.of_nat (k + i) + 1
        /\ includes (toLowerCase (line r)) (toLowerCase term) = true.
Proof.
  induction lines as [|l lines IH]; intros k r.
  - cbn. split; [tauto|]. intros ([|i] & H & _); discriminate.
  - unfold numbered_from. cbn [length seq map combine filter].
    fold (numbered_from (S k) lines).
    assert (Hrest :
      In r (map record_of (filter (accepts toLowerCase term) (numbered_from (S k) lines)))
      <-> exists i : nat,
          nth_error (l :: lines) (S i) = Some (line r)
          /\ lineNumber r = Z.of_nat (k + S i) + 1
          /\ includes (toLowerCase (line r)) (toLowerCase term) = true).
    { rewrite IH. split; intros (i & H1 & H2 & H3); exists i;
        (split; [exact H1|split; [lia|exact H3]]). }
    assert (Hhead : forall i,
      nth_error (l :: lines) i = Some (line r)
      /\ lineNumber r = Z.of_nat (k + i) + 1
      /\ includes (toLowerCase (line r)) (toLowerCase term) = true ->
      i = O -> r = record_of (Z.of_nat (S k), l)
               /\ accepts toLowerCase term (Z.of_nat (S k), l) = true).
    { intros i (H1 & H2 & H3) ->. cbn in H1. injection H1 as ->.
      split.
      - destruct r as [rl rn]. unfold record_of. cbn in *. f_equal. lia.
      - exact H3. }
    destruct (accepts toLowerCase term (Z.of_nat (S k), l)) eqn:Hacc.
    + cbn [map In]. rewrite Hrest. split.
      * intros [<-|(i & H)].
        -- exists O. cbn. repeat split; [lia|exact Hacc].
        -- exists (S i). exact H.
      * intros ([|i] & H).
        -- left. symmetry. now apply (Hhead O).
        -- right. now exists i.
    + rewrite Hrest. split.
      * intros (i & H). now exists (S i).
      * intros ([|i] & H).
        -- destruct (Hhead O H eq_refl) as [_ Habs]. discriminate.
        -- now exists i.
Qed.

(** The records come in strictly increasing order of line number. *)
Lemma sorted_matching_from (term : jsstring) (lines : list jsstring) :
  forall k : nat,
    StronglySorted (fun a b => lineNumber a < lineNumber b)
      (map record_of (filter (accepts toLowerCase term) (numbered_from k lines))).
Proof.
  induction lines as [|l lines IH]; intros k.
  - constructor.
  - unfold numbered_from. cbn [length seq map combine filter].
    fold (numbered_from (S k) lines).
    destruct (accepts toLowerCase term (Z.of_nat (S k), l)); [|apply IH].
    cbn [map]. constructor; [apply IH|].
    apply Forall_forall. intros r Hr.
    apply In_matching_from in Hr as (i & _ & Hn & _).
    cbn. lia.
Qed.

(** As many records as lines that contain the term. *)
Lemma length_matching_from (term : jsstring) (lines : list jsstring) :
  forall k : nat,
    length (map record_of (filter (accepts toLowerCase term) (numbered_from k lines)))
    = length (filter (fun l => includes (toLowerCase l) (toLowerCase term))
                lines).
Proof.
  induction lines as [|l lines IH]; intros k; [reflexivity|].
  unfold numbered_from. cbn [length seq map combine filter].
  fold (numbered_from (S k) lines).
  unfold accepts at 1. cbn [snd].
  destruct (includes (toLowerCase l) (toLowerCase term)); cbn [map length];
    now rewrite IH.
Qed.

(** ['line'] events only move the scan on. *)
Lemma dispatch_lines (term : jsstring) (page pageSize : Z)
  (lines : list jsstring) (rest : list rl_event) :
  forall (st : ScanState) (p : Promise),
    dispatch toLowerCase term page pageSize (map LineEvent lines ++ rest) st p
    = dispatch toLowerCase term page pageSize rest
        (fold_left (on_line toLowerCase term) lines st) p.
Proof.
  induction lines as [|l lines IH]; intros st p; [reflexivity|].
  cbn. apply IH.
Qed.

(** A settled promise stays as it is. *)
Lemma dispatch_settled (term : jsstring) (page pageSize : Z)
  (events : list rl_event) :
  forall (st : ScanState) (p : Promise),
    p <> Pending ->
    dispatch toLowerCase term page pageSize events st p = p.
Proof.
  induction events as [|[text| |cause] events IH]; intros st p Hp;
    cbn; [reflexivity|auto| |].
  - rewrite IH; destruct p; try reflexivity; try discriminate.
    contradiction.
  - rewrite IH; destruct p; try reflexivity; try discriminate.
    contradiction.
Qed.

(** The promise resolves with what the ['close'] handler builds, and
    rejects after the existence check only with the error of the
    readline interface. *)
Lemma dispatch_outcome (term : jsstring) (page pageSize : Z)
  (events : list rl_event) :
  forall st : ScanState,
    match dispatch toLowerCase term page pageSize events st Pending with
    | Pending => True
    | Resolved v => exists st', v = on_close page pageSize st'
    | Rejected e => exists cause, e = IOError cause
    end.
Proof.
  induction events as [|[text| |cause] events IH]; intros st; cbn.
  - exact I.
  - apply IH.
  - rewrite dispatch_settled by discriminate. now exists st.
  - rewrite dispatch_settled by discriminate. now exists cause.
Qed.

Lemma searchFile_complete (fs : FileSystem) (filePath term : jsstring)
  (page pageSize : Z) (f : File) (lines : list jsstring) :
  fs filePath = Some f ->
  file_events f = complete_scan lines ->
  searchFile toLowerCase fs filePath term page pageSize
  = Resolved (on_close page pageSize
                {| st_lineNumber := Z.of_nat (length lines);
                   st_results := scan toLowerCase term lines |}).
Proof.
  intros Hf Hev.
  unfold searchFile, searchFile_normalized, existsSync, readline_events.
  rewrite Hf, Hev. cbn [negb]. unfold complete_scan.
  rewrite dispatch_lines, scan_lineNumber. cbn.
  now rewrite scan_matching_lines.
Qed.

End Scan.

(* ================================================================= *)
(** ** Pages *)

Lemma matched_formatRecord (r : MatchRecord) : matched (formatRecord r) = r.
Proof.
  unfold formatRecord.
  now destruct (2 <=? Z.of_nat (length (split_ws (line r)))).
Qed.

Lemma map_matched_formatRecord (l : list MatchRecord) :
  map matched (map formatRecord l) = l.
Proof.
  rewrite map_map. rewrite <- (map_id l) at 2.
  apply map_ext. exact matched_formatRecord.
Qed.

Lemma page_start_nonneg (page pageSize : Z) :
  1 <= page -> 1 <= pageSize -> 0 <= (page - 1) * pageSize.
Proof. nia. Qed.

Lemma page_slice_window {A : Type} (l : list A) (pageSize p : Z) :
  1 <= p -> 1 <= pageSize ->
  page_slice l pageSize p
  = firstn (Z.to_nat pageSize) (skipn (Z.to_nat ((p - 1) * pageSize)) l).
Proof.
  intros Hp Hs. unfold page_slice.
  apply slice_window; [now apply page_start_nonneg|lia].
Qed.

Lemma on_close_results (page pageSize : Z) (st : ScanState) :
  results (on_close page pageSize st)
  = map formatRecord (page_slice (st_results st) pageSize page).
Proof. reflexivity. Qed.

(** A page that starts at or after the end of the list is empty. *)
Lemma page_slice_beyond {A : Type} (l : list A) (pageSize p : Z) :
  1 <= p -> 1 <= pageSize ->
  Z.of_nat (length l) <= (p - 1) * pageSize ->
  page_slice l pageSize p = [].
Proof.
  intros Hp Hs Hlen. rewrite page_slice_window by assumption.
  rewrite skipn_all2 by lia. apply firstn_nil.
Qed.

(** Item [i] of page [p] is item [page_position pageSize p i] of the
    list, and a page has at most [pageSize] items. *)
Lemma page_slice_nth {A : Type} (l : list A) (pageSize p : Z) (i : nat) :
  1 <= p -> 1 <= pageSize ->
  (i < length (page_slice l pageSize p))%nat ->
  Z.of_nat i < pageSize
  /\ nth_error (page_slice l pageSize p) i
     = nth_error l (page_position pageSize p i).
Proof.
  intros Hp Hs. rewrite page_slice_window by assumption.
  rewrite length_firstn. intros Hi.
  split; [lia|].
  rewrite nth_error_firstn, nth_error_skipn.
  destruct (Nat.ltb_spec i (Z.to_nat pageSize)); [reflexivity|lia].
Qed.

(** Items of different pages sit at different positions. *)
Lemma page_position_lt (pageSize p q : Z) (i j : nat) :
  1 <= p -> p < q -> 1 <= pageSize -> Z.of_nat i < pageSize ->
  (page_position pageSize p i < page_position pageSize q j)%nat.
Proof.
  intros Hp Hq Hs Hi. unfold page_position.
  assert (0 <= (p - 1) * pageSize) by nia.
  assert ((p - 1) * pageSize + pageSize <= (q - 1) * pageSize) by nia.
  lia.
Qed.

(** The first [k] pages, one after the other, are the first
    [k * pageSize] items. *)
Lemma concat_first_pages {A : Type} (l : list A) (pageSize : Z) (k : nat) :
  1 <= pageSize ->
  concat (map (page_slice l pageSize) (map Z.of_nat (seq 1 k)))
  = firstn (k * Z.to_nat pageSize) l.
Proof.
  intros Hs. induction k as [|k IH]; [reflexivity|].
  rewrite seq_S, !map_app, concat_app, IH. cbn [map concat].
  rewrite app_nil_r, page_slice_window by lia.
  replace (Z.to_nat ((Z.of_nat (1 + k) - 1) * pageSize))
    with (k * Z.to_nat pageSize)%nat by nia.
  replace (S k * Z.to_nat pageSize)%nat
    with (k * Z.to_nat pageSize + Z.to_nat pageSize)%nat by lia.
  symmetry. apply firstn_add.
Qed.

Lemma concat_all_pages {A : Type} (l : list A) (pageSize : Z) :
  1 <= pageSize ->
  concat (map (page_slice l pageSize)
            (pages (Math_ceil_div (Z.of_nat (length l)) pageSize)))
  = l.
Proof.
  intros Hs. unfold pages. rewrite concat_first_pages by assumption.
  apply firstn_all2.
  pose proof (Math_ceil_div_bounds (Z.of_nat (length l)) pageSize ltac:(lia)).
  nia.
Qed.

(* ================================================================= *)
(** ** The properties of the search engine *)

(** C1: for every file, given by the lines its readline interface
    delivers, and every search term, [searchFile] resolves from the
    array of matches that the scan builds, and that array is the ordered
    sequence of [{line, lineNumber}] for exactly the lines whose
    lower-case form contains the lower-case normalized term: each record
    carries the 1-based number of its line, the line numbers increase
    strictly, and there are as many records as such lines. *)
Theorem scan_matches_exactly
  (toLowerCase : jsstring -> jsstring) (fs : FileSystem)
  (filePath term : jsstring) (page pageSize : Z)
  (f : File) (lines : list jsstring) :
  fs filePath = Some f ->
  file_events f = complete_scan lines ->
  let normalized := replace term [SPACE] [UNDERSCORE] in
  let found := scan toLowerCase term lines in
  searchFile toLowerCase fs filePath term page pageSize
  = Resolved (on_close page pageSize
                {| st_lineNumber := Z.of_nat (length lines);
                   st_results := found |})
  /\ found = matching_lines toLowerCase normalized lines
  /\ (forall r : MatchRecord,
        In r found <->
        exists i : nat,
          nth_error lines i = Some (line r)
          /\ lineNumber r = Z.of_nat i + 1
          /\ substring (toLowerCase normalized) (toLowerCase (line r)))
  /\ StronglySorted (fun a b => lineNumber a < lineNumber b) found
  /\ length found
     = length (filter (fun l => includes (toLowerCase l)
                                  (toLowerCase normalized)) lines).
Proof.
  intros Hf Hev normalized found.
  assert (Hfound : found = matching_lines toLowerCase normalized lines)
    by apply scan_matching_lines.
  split; [now apply (searchFile_complete _ _ _ _ _ _ f)|].
  split; [exact Hfound|].
  rewrite Hfound. unfold matching_lines, numbered.
  split; [|split].
  - intros r.
    rewrite (In_matching_from toLowerCase normalized lines 0 r).
    split; intros (i & H1 & H2 & H3); exists i;
      (split; [exact H1|split; [exact H2|]]);
      now apply includes_substring.
  - apply (sorted_matching_from toLowerCase normalized lines 0).
  - apply (length_matching_from toLowerCase normalized lines 0).
Qed.

(** C2: for every match list, every page >= 1 and pageSize >= 1, the
    results the ['close'] handler returns are the formatted records of
    the window [matches[(page-1)*pageSize : (page-1)*pageSize + pageSize]]
    of the whole match list, in the order of the list; a page beyond the
    last one gives the empty sequence, and a pageSize that is at least
    the number of matches gives the whole list on page 1. *)
Theorem page_is_window (page pageSize : Z) (st : ScanState) :
  1 <= page ->
  1 <= pageSize ->
  let matches := st_results st in
  let window :=
    firstn (Z.to_nat pageSize)
      (skipn (Z.to_nat ((page - 1) * pageSize)) matches) in
  let returned := results (on_close page pageSize st) in
  returned = map formatRecord window
  /\ map matched returned = window
  /\ (Z.of_nat (length matches) <= (page - 1) * pageSize -> returned = [])
  /\ (page = 1 -> Z.of_nat (length matches) <= pageSize ->
      map matched returned = matches).
Proof.
  intros Hp Hs matches window returned.
  assert (Hret : returned = map formatRecord window).
  { unfold returned. rewrite on_close_results.
    now rewrite page_slice_window. }
  split; [exact Hret|].
  split; [rewrite Hret; apply map_matched_formatRecord|].
  split.
  - intros Hlen. unfold returned. rewrite on_close_results.
    now rewrite page_slice_beyond.
  - intros -> Hlen. rewrite Hret, map_matched_formatRecord.
    unfold window. cbn [Z.sub Z.mul Z.to_nat skipn Z.add Z.opp Z.pos_sub].
    apply firstn_all2. lia.
Qed.

(** C3: every page result that a search resolves with, for a pageSize
    >= 1, has [totalPages = ceil(totalResults / pageSize)] (the least
    number of pages that hold all the matches, 0 when there is no
    match), [hasNextPage = (page < totalPages)] and
    [hasPreviousPage = (page > 1)], whatever the page; beyond the last
    page the slice is empty and [hasNextPage] is false. *)
Theorem pagination_invariants
  (toLowerCase : jsstring -> jsstring) (fs : FileSystem)
  (filePath term : jsstring) (page_ pageSize_ : Z) (v : PageResult) :
  1 <= pageSize_ ->
  searchFile toLowerCase fs filePath term page_ pageSize_ = Resolved v ->
  let block := pagination v in
  page block = page_
  /\ pageSize block = pageSize_
  /\ 0 <= totalResults block
  /\ (totalPages block - 1) * pageSize_ < totalResults block
     <= totalPages block * pageSize_
  /\ totalPages block = ceil_quotient (totalResults block) pageSize_
  /\ (totalResults block = 0 -> totalPages block = 0)
  /\ hasNextPage block = (page_ <? totalPages block)
  /\ hasPreviousPage block = (1 <? page_)
  /\ (totalPages block < page_ ->
      results v = [] /\ hasNextPage block = false).
Proof.
  intros Hs Hv block.
  unfold searchFile, searchFile_normalized in Hv.
  destruct (negb (existsSync fs filePath)); [discriminate|].
  pose proof (dispatch_outcome toLowerCase
                (replace term [SPACE] [UNDERSCORE]) page_ pageSize_
                (readline_events fs filePath)
                {| st_lineNumber := 0; st_results := [] |}) as Hout.
  rewrite Hv in Hout. destruct Hout as [st ->].
  unfold block. cbn [pagination on_close page pageSize totalResults
                     totalPages hasNextPage hasPreviousPage].
  set (n := Z.of_nat (length (st_results st))).
  pose proof (Math_ceil_div_bounds n pageSize_ ltac:(lia)) as Hb.
  repeat split; try lia.
  - apply Math_ceil_div_quotient. lia.
  - intros Hn. rewrite Hn. apply Math_ceil_div_0. lia.
  - rewrite on_close_results.
    rewrite page_slice_beyond; [reflexivity| | |]; unfold n in *; nia.
Qed.

(** C4, as the program has it: the formatter splits the line at every
    maximal run of white space, which leaves an empty first part when
    the line starts with white space and an empty last part when it
    ends with white space; the empty line gives one empty part.  The
    record is enriched with [id] = the first part, [value] = the other
    parts joined by single spaces and [formatted] = [id], TAB, [value]
    exactly when there are two parts or more, that is when the line has
    a white-space code unit; otherwise it is passed through unchanged.
    For a line that is not empty the parts are its white-space
    separated tokens, after an empty part when the line starts with
    white space and before an empty part when it ends with white space;
    the empty line has one empty part and no token, and is passed
    through.  So for a line that neither starts nor ends with white
    space, the empty line included, [id] is the first token and [value]
    the other tokens, and the record is enriched exactly when there are
    two tokens or more. *)
Theorem formatter_parts (r : MatchRecord) :
  let parts := split_ws (line r) in
  formatRecord r
  = match parts with
    | first :: (_ :: _) as rest =>
        {| matched := r;
           keyValue := Some {| id := first;
                               value := join [SPACE] rest;
                               formatted := first ++ [TAB] ++ join [SPACE] rest |} |}
    | _ => {| matched := r; keyValue := None |}
    end
  /\ ((2 <= length parts)%nat <->
      exists c, In c (line r) /\ isWhiteSpace c = true)
  /\ (line r <> [] ->
      parts = (if starts_ws (line r) then [[]] else [])
              ++ tokens (line r)
              ++ (if ends_ws (line r) then [[]] else []))
  /\ (starts_ws (line r) = false -> ends_ws (line r) = false ->
      formatRecord r
      = match tokens (line r) with
        | first :: (_ :: _) as rest =>
            {| matched := r;
               keyValue := Some {| id := first;
                                   value := join [SPACE] rest;
                                   formatted := first ++ [TAB] ++ join [SPACE] rest |} |}
        | _ => {| matched := r; keyValue := None |}
        end)
  /\ (line r = [] ->
      parts = [[]]
      /\ tokens (line r) = []
      /\ formatRecord r = {| matched := r; keyValue := None |})
  /\ (line r <> [] ->
      starts_ws (line r) = false -> ends_ws (line r) = false ->
      parts = tokens (line r))
  /\ (starts_ws (line r) = false -> ends_ws (line r) = false ->
      (keyValue (formatRecord r) <> None
       <-> (2 <= length (tokens (line r)))%nat)).
Proof.
  intros parts.
  assert (Htok : starts_ws (line r) = false -> ends_ws (line r) = false ->
    formatRecord r
    = match tokens (line r) with
      | first :: (_ :: _) as rest =>
          {| matched := r;
             keyValue := Some {| id := first;
                                 value := join [SPACE] rest;
                                 formatted := first ++ [TAB] ++ join [SPACE] rest |} |}
      | _ => {| matched := r; keyValue := None |}
      end).
  { intros Hs He. rewrite formatRecord_parts.
    destruct (line r) as [|c s] eqn:El; [reflexivity|].
    rewrite split_ws_tokens by discriminate.
    rewrite Hs, He. cbn [app]. now rewrite app_nil_r. }
  split; [apply formatRecord_parts|].
  split; [|split; [|split; [|split; [|split]]]].
  - pose proof (split_ws_two_parts (line r)) as H. fold parts in H.
    rewrite <- existsb_exists, <- H. rewrite Z.leb_le. lia.
  - apply split_ws_tokens.
  - exact Htok.
  - intros El. unfold parts. rewrite formatRecord_parts, El.
    repeat split.
  - intros Hne Hs He. unfold parts.
    rewrite split_ws_tokens by exact Hne.
    rewrite Hs, He. cbn [app]. now rewrite app_nil_r.
  - intros Hs He. rewrite (Htok Hs He).
    destruct (tokens (line r)) as [|first [|second rest]]; cbn [keyValue length].
    + split; [intros H; now destruct H|lia].
    + split; [intros H; now destruct H|lia].
    + split; [intros _; lia|discriminate].
Qed.

(** C4 as stated fails on a line that starts with white space: [" abc"]
    has one token, and the formatter gives it an empty [id]. *)
Lemma formatter_leading_space :
  let r := {| line := str " abc"; lineNumber := 1 |} in
  tokens (line r) = [str "abc"]
  /\ formatRecord r
     = {| matched := r;
          keyValue := Some {| id := [];
                              value := str "abc";
                              formatted := TAB :: str "abc" |} |}
  /\ formatRecord r <> {| matched := r; keyValue := None |}.
Proof.
  cbv zeta. split; [reflexivity|]. split; [reflexivity|]. discriminate.
Qed.

(** C5, as the program has it: [searchFile] rejects with the "file not
    found" error exactly when the path does not exist, whatever the
    term and the page; when the file exists and its scan completes
    without a match, it resolves with [results = []], [totalResults = 0],
    [totalPages = 0], [hasNextPage = false] and
    [hasPreviousPage = (page > 1)], so both flags are false on page 1. *)
Theorem not_found_or_empty_page
  (toLowerCase : jsstring -> jsstring) (fs : FileSystem)
  (filePath term : jsstring) (page_ pageSize_ : Z) :
  (searchFile toLowerCase fs filePath term page_ pageSize_
   = Rejected (FileNotFound filePath)
   <-> fs filePath = None)
  /\ (forall (f : File) (lines : list jsstring),
        fs filePath = Some f ->
        file_events f = complete_scan lines ->
        (forall l, In l lines ->
           includes (toLowerCase l)
             (toLowerCase (replace term [SPACE] [UNDERSCORE])) = false) ->
        1 <= page_ ->
        1 <= pageSize_ ->
        searchFile toLowerCase fs filePath term page_ pageSize_
        = Resolved
            {| results := [];
               pagination := {| page := page_;
                                pageSize := pageSize_;
                                totalResults := 0;
                                totalPages := 0;
                                hasNextPage := false;
                                hasPreviousPage := 1 <? page_ |} |}).
Proof.
  split.
  - unfold searchFile, searchFile_normalized, existsSync.
    destruct (fs filePath) as [f|] eqn:Hf; cbn [negb reject].
    + split; [|discriminate]. intros H.
      pose proof (dispatch_outcome toLowerCase
                    (replace term [SPACE] [UNDERSCORE]) page_ pageSize_
                    (readline_events fs filePath)
                    {| st_lineNumber := 0; st_results := [] |}) as Hout.
      rewrite H in Hout. destruct Hout as [cause Hc]. discriminate.
    + tauto.
  - intros f lines Hf Hev Hnone Hp Hs.
    rewrite (searchFile_complete _ _ _ _ _ _ f lines Hf Hev).
    assert (Hscan : scan toLowerCase term lines = []).
    { destruct (scan toLowerCase term lines) as [|r rs] eqn:E; [reflexivity|].
      exfalso.
      assert (Hin : In r (scan toLowerCase term lines))
        by (rewrite E; now left).
      rewrite scan_matching_lines in Hin.
      unfold matching_lines, numbered in Hin.
      apply (In_matching_from toLowerCase _ lines 0) in Hin
        as (i & Hi & _ & Hinc).
      apply nth_error_In in Hi. rewrite (Hnone _ Hi) in Hinc.
      discriminate. }
    rewrite Hscan. unfold on_close.
    cbn [st_results length Z.of_nat].
    rewrite Math_ceil_div_0, slice_nil by lia.
    replace (page_ <? 0) with false by lia.
    reflexivity.
Qed.

(** C5 as stated fails on a page after the first: a search without a
    match on page 2 resolves with [hasPreviousPage = true]. *)
Lemma empty_page_two_has_previous :
  searchFile ascii_toLowerCase sample_fs sample_path
    (str "nonexistentterm") 2 10
  = Resolved
      {| results := [];
         pagination := {| page := 2;
                          pageSize := 10;
                          totalResults := 0;
                          totalPages := 0;
                          hasNextPage := false;
                          hasPreviousPage := true |} |}.
Proof. reflexivity. Qed.

Lemma first_space (s : jsstring) :
  ~ In SPACE s
  \/ exists pre post, s = pre ++ SPACE :: post /\ ~ In SPACE pre.
Proof.
  induction s as [|c s IH].
  - left. intros [].
  - destruct (N.eq_dec c SPACE) as [->|Hc].
    + right. exists [], s. split; [reflexivity|intros []].
    + destruct IH as [Hn|(pre & post & -> & Hn)].
      * left. intros [H|H]; [now apply Hc|now apply Hn].
      * right. exists (c :: pre), post. split; [reflexivity|].
        intros [H|H]; [now apply Hc|now apply Hn].
Qed.

(** C6: for every search term, the normalization replaces the first
    space, and only it, by an underscore: a term without space is kept,
    and a term [pre ++ " " ++ post] without space in [pre] becomes
    [pre ++ "_" ++ post], the spaces of [post] included; the search
    matches the lines against that normalized term. *)
Theorem normalization_first_space_only
  (toLowerCase : jsstring -> jsstring) (fs : FileSystem)
  (filePath term : jsstring) (page_ pageSize_ : Z) :
  let normalized := replace term [SPACE] [UNDERSCORE] in
  searchFile toLowerCase fs filePath term page_ pageSize_
  = searchFile_normalized toLowerCase fs filePath normalized page_ pageSize_
  /\ (forall lines,
        scan toLowerCase term lines
        = matching_lines toLowerCase normalized lines)
  /\ ((~ In SPACE term /\ normalized = term)
      \/ (exists pre post,
            term = pre ++ SPACE :: post
            /\ ~ In SPACE pre
            /\ normalized = pre ++ UNDERSCORE :: post)).
Proof.
  intros normalized.
  split; [reflexivity|].
  split; [intros lines; apply scan_matching_lines|].
  destruct (first_space term) as [Hn|(pre & post & E & Hn)].
  - left. split; [exact Hn|]. now apply replace_space_none.
  - right. exists pre, post. split; [exact E|]. split; [exact Hn|].
    unfold normalized. rewrite E. now apply replace_space_first.
Qed.

(** C7: for every match list and every page and pageSize >= 1, the page
    result of the composition "format every match, then paginate the
    formatted list" is the page result the ['close'] handler builds by
    cutting the page out of the raw match list and formatting that
    slice only. *)
Theorem format_then_paginate_refines
  (matches : list MatchRecord) (page_ pageSize_ lineNumber_ : Z) :
  1 <= page_ ->
  1 <= pageSize_ ->
  format_then_paginate matches page_ pageSize_
  = on_close page_ pageSize_
      {| st_lineNumber := lineNumber_; st_results := matches |}.
Proof.
  intros Hp Hs.
  unfold format_then_paginate, Paginator, on_close.
  cbn [st_results].
  rewrite length_map, skipn_map, firstn_map.
  rewrite Math_ceil_div_quotient by lia.
  rewrite slice_window by (try apply page_start_nonneg; lia).
  reflexivity.
Qed.

(** C8: for every match list of length N (empty or not) and every page
    size S >= 1, the slices of the pages 1 .. ceil(N/S), one after the
    other, are the match list in its order, their lengths sum to N, and
    they take disjoint positions of the list: item [i] of page [p] is
    the item at position [(p-1)*S + i], with [i < S], so an item of an
    earlier page sits before every item of a later page; when no record
    occurs twice in the list, no record is on two pages. *)
Theorem pages_partition (matches : list MatchRecord) (pageSize_ : Z) :
  1 <= pageSize_ ->
  let n := Math_ceil_div (Z.of_nat (length matches)) pageSize_ in
  let slice_of := page_slice matches pageSize_ in
  concat (map slice_of (pages n)) = matches
  /\ list_sum (map (fun p => length (slice_of p)) (pages n))
     = length matches
  /\ (forall (p lineNumber_ : Z),
        map matched
          (results (on_close p pageSize_
                      {| st_lineNumber := lineNumber_;
                         st_results := matches |}))
        = slice_of p)
  /\ (forall (p : Z) (i : nat),
        1 <= p -> (i < length (slice_of p))%nat ->
        Z.of_nat i < pageSize_
        /\ nth_error (slice_of p) i
           = nth_error matches (page_position pageSize_ p i))
  /\ (forall (p q : Z) (i j : nat),
        1 <= p -> p < q ->
        (i < length (slice_of p))%nat -> (j < length (slice_of q))%nat ->
        (page_position pageSize_ p i < page_position pageSize_ q j)%nat)
  /\ (NoDup matches ->
      forall (p q : Z) (x : MatchRecord),
        1 <= p -> p < q -> In x (slice_of p) -> ~ In x (slice_of q)).
Proof.
  intros Hs n slice_of.
  assert (Hcat : concat (map slice_of (pages n)) = matches)
    by now apply concat_all_pages.
  split; [exact Hcat|].
  split.
  { transitivity (length (concat (map slice_of (pages n))));
      [|now rewrite Hcat].
    now rewrite length_concat, map_map. }
  split.
  { intros p lineNumber_. rewrite on_close_results.
    apply map_matched_formatRecord. }
  split; [intros p i Hp Hi; now apply page_slice_nth|].
  split.
  - intros p q i j Hp Hq Hi Hj.
    apply page_position_lt; try assumption.
    now apply (page_slice_nth matches pageSize_ p i).
  - intros Hnd p q x Hp Hq Hxp Hxq.
    apply In_nth_error in Hxp as [i Hi]. apply In_nth_error in Hxq as [j Hj].
    assert (Hil : (i < length (slice_of p))%nat)
      by (apply nth_error_Some; now rewrite Hi).
    assert (Hjl : (j < length (slice_of q))%nat)
      by (apply nth_error_Some; now rewrite Hj).
    destruct (page_slice_nth matches pageSize_ p i Hp Hs Hil) as [Hlt Hpi].
    destruct (page_slice_nth matches pageSize_ q j ltac:(lia) Hs Hjl)
      as [_ Hqj].
    fold slice_of in Hpi, Hqj. rewrite Hi in Hpi. rewrite Hj in Hqj.
    pose proof (page_position_lt pageSize_ p q i j Hp Hq Hs Hlt) as Hpos.
    rewrite NoDup_nth_error in Hnd.
    assert (Hsame : page_position pageSize_ p i = page_position pageSize_ q j).
    { apply Hnd; [|congruence].
      apply nth_error_Some. now rewrite <- Hpi. }
    lia.
Qed.

Lemma filter_all {A : Type} (f : A -> bool) (l : list A) :
  (forall x, f x = true) -> filter f l = l.
Proof.
  intros Hf. induction l as [|x l IH]; [reflexivity|].
  cbn. now rewrite Hf, IH.
Qed.

(** C9: the schema of the search tools accepts the empty query (its
    check of [query] does not depend on the string), and for the empty
    term every line matches: [searchFile] resolves with [totalResults]
    equal to the number of lines of the file. *)
Theorem empty_term_matches_every_line
  (toLowerCase : jsstring -> jsstring) (fs : FileSystem)
  (filePath : jsstring) (f : File) (lines : list jsstring) :
  toLowerCase [] = [] ->
  fs filePath = Some f ->
  file_events f = complete_scan lines ->
  FileSearchSchema_parse
    {| arg_query := JString []; arg_page := JUndefined;
       arg_pageSize := JUndefined |}
  = Some {| query := []; filePage := 1; filePageSize := 10 |}
  /\ (forall q pg psz parsed,
        FileSearchSchema_parse
          {| arg_query := JString q; arg_page := pg; arg_pageSize := psz |}
        = Some parsed ->
        FileSearchSchema_parse
          {| arg_query := JString []; arg_page := pg; arg_pageSize := psz |}
        = Some {| query := []; filePage := filePage parsed;
                  filePageSize := filePageSize parsed |})
  /\ length (scan toLowerCase [] lines) = length lines
  /\ (forall page_ pageSize_ : Z,
        exists v,
          searchFile toLowerCase fs filePath [] page_ pageSize_ = Resolved v
          /\ totalResults (pagination v) = Z.of_nat (length lines)).
Proof.
  intros Hlow Hf Hev.
  assert (Hlen : length (scan toLowerCase [] lines) = length lines).
  { rewrite scan_matching_lines. unfold matching_lines, numbered.
    rewrite (length_matching_from toLowerCase _ lines 0).
    rewrite filter_all; [reflexivity|].
    intros l. cbn [replace startsWith]. rewrite Hlow. apply includes_empty. }
  split; [reflexivity|].
  split.
  { intros q pg psz parsed. unfold FileSearchSchema_parse.
    cbn [arg_query arg_page arg_pageSize].
    destruct pg as [| |n|]; destruct psz as [| |m|];
      try discriminate;
      repeat match goal with
             | |- context [if ?b then _ else _] => destruct b
             end;
      try discriminate; now intros [= <-]. }
  split; [exact Hlen|].
  intros page_ pageSize_. eexists. split.
  - apply (searchFile_complete _ _ _ _ _ _ f lines Hf Hev).
  - cbn [on_close pagination totalResults st_results]. now rewrite Hlen.
Qed.

(** C10: for every file that [statSync] and [readFileSync] read, the
    [lineCount] that [getFileDetails] reports is the number of newline
    code units of the content plus one: 1 for the empty file, and for a
    content that ends with a newline the empty piece after it is
    counted as one more line. *)
Theorem lineCount_is_newlines_plus_one
  (DATA_DIR : jsstring) (path_join : jsstring -> jsstring -> jsstring)
  (fs : FileSystem) (filename : jsstring)
  (f : File) (stats : Stats) (content : jsstring) :
  fs (path_join DATA_DIR filename) = Some f ->
  file_stats f = Some stats ->
  file_utf8 f = Some content ->
  let lineCount := Z.of_nat (occurrences NEWLINE content) + 1 in
  getFileDetails DATA_DIR path_join fs filename
  = Details (size stats) lineCount (birthtime stats) (mtime stats)
  /\ getFileLineCount fs (path_join DATA_DIR filename) = lineCount
  /\ (content = [] -> lineCount = 1)
  /\ (forall body, content = body ++ [NEWLINE] ->
        last (split NEWLINE content) [] = []
        /\ lineCount = Z.of_nat (occurrences NEWLINE body) + 2).
Proof.
  intros Hf Hst Hread lineCount.
  assert (Hcount :
    getFileLineCount fs (path_join DATA_DIR filename) = lineCount).
  { unfold getFileLineCount, readFileSync. rewrite Hf, Hread.
    rewrite split_length. unfold lineCount. lia. }
  split.
  { unfold getFileDetails, existsSync, statSync.
    rewrite Hcount, Hf, Hst. reflexivity. }
  split; [exact Hcount|].
  split.
  - intros ->. reflexivity.
  - intros body ->. split; [apply split_last_empty|].
    unfold lineCount. rewrite occurrences_app, occurrences_self. lia.
Qed.

(* ================================================================= *)
(** ** The properties on the sample data *)

Lemma scan_matches_exactly_witness :
  sample_fs sample_path = Some sample_file
  /\ file_events sample_file = complete_scan sample_lines
  /\ searchFile ascii_toLowerCase sample_fs sample_path (str "dragon") 1 1
     = Resolved (on_close 1 1 sample_state)
  /\ scan ascii_toLowerCase (str "dragon") sample_lines = sample_matches
  /\ length (scan ascii_toLowerCase (str "dragon") sample_lines) = 2%nat.
Proof.
  pose proof (scan_matches_exactly ascii_toLowerCase sample_fs sample_path
                (str "dragon") 1 1 sample_file sample_lines
                eq_refl eq_refl) as (H1 & H2 & _ & _ & H5).
  split; [reflexivity|]. split; [reflexivity|].
  split; [exact H1|]. split; [exact H2|exact H5].
Defined.

Lemma page_is_window_witness :
  1 <= 2 /\ 1 <= 1
  /\ map matched (results (on_close 2 1 sample_state))
     = [{| line := str "101 Dragon longsword"; lineNumber := 2 |}].
Proof.
  split; [lia|]. split; [lia|].
  exact (proj1 (proj2 (page_is_window 2 1 sample_state
                         ltac:(lia) ltac:(lia)))).
Defined.

Lemma pagination_invariants_witness :
  1 <= 1
  /\ searchFile ascii_toLowerCase sample_fs sample_path (str "dragon") 1 1
     = Resolved (on_close 1 1 sample_state)
  /\ totalPages (pagination (on_close 1 1 sample_state))
     = ceil_quotient 2 1
  /\ hasNextPage (pagination (on_close 1 1 sample_state)) = true.
Proof.
  pose proof (pagination_invariants ascii_toLowerCase sample_fs sample_path
                (str "dragon") 1 1 (on_close 1 1 sample_state)
                ltac:(lia) eq_refl) as (_ & _ & _ & _ & H5 & _ & H7 & _).
  split; [lia|]. split; [reflexivity|]. split; [exact H5|exact H7].
Defined.

Lemma formatter_parts_witness :
  let r := {| line := str "100 Dragon scimitar"; lineNumber := 1 |} in
  starts_ws (line r) = false
  /\ ends_ws (line r) = false
  /\ formatRecord r
     = {| matched := r;
          keyValue := Some {| id := str "100";
                              value := str "Dragon scimitar";
                              formatted := str "100" ++ [TAB]
                                           ++ str "Dragon scimitar" |} |}.
Proof.
  intros r. split; [reflexivity|]. split; [reflexivity|].
  exact (proj1 (proj2 (proj2 (proj2 (formatter_parts r)))) eq_refl eq_refl).
Defined.

Lemma not_found_or_empty_page_witness :
  sample_fs (str "data/missing.txt") = None
  /\ searchFile ascii_toLowerCase sample_fs (str "data/missing.txt")
       (str "x") 1 10
     = Rejected (FileNotFound (str "data/missing.txt"))
  /\ searchFile ascii_toLowerCase sample_fs sample_path
       (str "nonexistentterm") 1 10
     = Resolved
         {| results := [];
            pagination := {| page := 1;
                             pageSize := 10;
                             totalResults := 0;
                             totalPages := 0;
                             hasNextPage := false;
                             hasPreviousPage := false |} |}.
Proof.
  split; [reflexivity|]. split.
  - exact (proj2 (proj1 (not_found_or_empty_page ascii_toLowerCase sample_fs
                           (str "data/missing.txt") (str "x") 1 10))
             eq_refl).
  - refine (proj2 (not_found_or_empty_page ascii_toLowerCase sample_fs
                     sample_path (str "nonexistentterm") 1 10)
              sample_file sample_lines eq_refl eq_refl _
              ltac:(lia) ltac:(lia)).
    intros l [<-|[<-|[<-|[]]]]; reflexivity.
Defined.

Lemma format_then_paginate_refines_witness :
  1 <= 2 /\ 1 <= 1
  /\ format_then_paginate sample_matches 2 1 = on_close 2 1 sample_state.
Proof.
  split; [lia|]. split; [lia|].
  exact (format_then_paginate_refines sample_matches 2 1 3
           ltac:(lia) ltac:(lia)).
Defined.

Lemma pages_partition_witness :
  1 <= 1
  /\ pages (Math_ceil_div 2 1) = [1; 2]
  /\ concat (map (page_slice sample_matches 1) [1; 2]) = sample_matches
  /\ (length (page_slice sample_matches 1 1)
      + length (page_slice sample_matches 1 2))%nat = 2%nat.
Proof.
  pose proof (pages_partition sample_matches 1 ltac:(lia))
    as (H1 & H2 & _).
  cbv zeta in H1, H2.
  split; [lia|]. split; [reflexivity|]. split; [exact H1|exact H2].
Defined.

Lemma empty_term_matches_every_line_witness :
  ascii_toLowerCase [] = []
  /\ sample_fs sample_path = Some sample_file
  /\ file_events sample_file = complete_scan sample_lines
  /\ exists v,
       searchFile ascii_toLowerCase sample_fs sample_path [] 1 10
       = Resolved v
       /\ totalResults (pagination v) = 3.
Proof.
  split; [reflexivity|]. split; [reflexivity|]. split; [reflexivity|].
  exact (proj2 (proj2 (proj2 (empty_term_matches_every_line
                                 ascii_toLowerCase sample_fs sample_path
                                 sample_file sample_lines
                                 eq_refl eq_refl eq_refl))) 1 10).
Defined.

Lemma lineCount_is_newlines_plus_one_witness :
  sample_fs (sample_path_join sample_DATA_DIR (str "objtypes.txt"))
  = Some sample_file
  /\ getFileDetails sample_DATA_DIR sample_path_join sample_fs
       (str "objtypes.txt")
     = Details 57 4 1700000000 1700000500.
Proof.
  split; [reflexivity|].
  exact (proj1 (lineCount_is_newlines_plus_one sample_DATA_DIR
                  sample_path_join sample_fs (str "objtypes.txt")
                  sample_file
                  {| size := 57; birthtime := 1700000000;
                     mtime := 1700000500 |}
                  (concat (map (fun l => l ++ [NEWLINE]) sample_lines))
                  eq_refl eq_refl eq_refl)).
Defined.

(* ================================================================= *)
(** ** Further properties: the events of the scan *)

Lemma searchFile_resolved (toLowerCase : jsstring -> jsstring)
  (fs : FileSystem) (filePath term : jsstring) (page_ pageSize_ : Z)
  (v : PageResult) :
  searchFile toLowerCase fs filePath term page_ pageSize_ = Resolved v ->
  exists st, v = on_close page_ pageSize_ st.
Proof.
  unfold searchFile, searchFile_normalized. intros Hv.
  destruct (negb (existsSync fs filePath)); [discriminate|].
  pose proof (dispatch_outcome toLowerCase
                (replace term [SPACE] [UNDERSCORE]) page_ pageSize_
                (readline_events fs filePath)
                {| st_lineNumber := 0; st_results := [] |}) as Hout.
  now rewrite Hv in Hout.
Qed.

Lemma searchFile_rejected (toLowerCase : jsstring -> jsstring)
  (fs : FileSystem) (filePath term : jsstring) (page_ pageSize_ : Z)
  (e : SearchError) :
  searchFile toLowerCase fs filePath term page_ pageSize_ = Rejected e ->
  (e = FileNotFound filePath /\ existsSync fs filePath = false)
  \/ (exists cause, e = IOError cause).
Proof.
  unfold searchFile, searchFile_normalized. intros He.
  destruct (existsSync fs filePath); cbn [negb reject] in He.
  - right.
    pose proof (dispatch_outcome toLowerCase
                  (replace term [SPACE] [UNDERSCORE]) page_ pageSize_
                  (readline_events fs filePath)
                  {| st_lineNumber := 0; st_results := [] |}) as Hout.
    now rewrite He in Hout.
  - left. injection He as <-. now split.
Qed.

(** X1: when the readline interface of an existing file emits an error
    before it closes, the promise rejects with that error, whatever the
    lines read so far and whatever comes after: no partial result. *)
Theorem error_before_close_rejects
  (toLowerCase : jsstring -> jsstring) (fs : FileSystem)
  (filePath term : jsstring) (page_ pageSize_ : Z) (f : File)
  (lines : list jsstring) (cause : jsstring) (rest : list rl_event) :
  fs filePath = Some f ->
  file_events f = map LineEvent lines ++ ErrorEvent cause :: rest ->
  searchFile toLowerCase fs filePath term page_ pageSize_
  = Rejected (IOError cause).
Proof.
  intros Hf Hev.
  unfold searchFile, searchFile_normalized, existsSync, readline_events.
  rewrite Hf, Hev. cbn [negb].
  rewrite dispatch_lines. cbn [dispatch reject].
  now rewrite dispatch_settled.
Qed.

(** X2: the first ['close'] settles the promise: events that come after
    it, lines or errors, do not change the page result, which is built
    from the lines read before the close. *)
Theorem events_after_close_ignored
  (toLowerCase : jsstring -> jsstring) (fs : FileSystem)
  (filePath term : jsstring) (page_ pageSize_ : Z) (f : File)
  (lines : list jsstring) (rest : list rl_event) :
  fs filePath = Some f ->
  file_events f = map LineEvent lines ++ CloseEvent :: rest ->
  searchFile toLowerCase fs filePath term page_ pageSize_
  = Resolved (on_close page_ pageSize_
                {| st_lineNumber := Z.of_nat (length lines);
                   st_results := scan toLowerCase term lines |}).
Proof.
  intros Hf Hev.
  unfold searchFile, searchFile_normalized, existsSync, readline_events.
  rewrite Hf, Hev. cbn [negb].
  rewrite dispatch_lines, scan_lineNumber. cbn [dispatch resolve].
  rewrite dispatch_settled by discriminate.
  now rewrite scan_matching_lines.
Qed.

(* ================================================================= *)
(** ** Further properties: the size of a page *)

Lemma page_slice_length {A : Type} (l : list A) (pageSize_ p : Z) :
  1 <= p -> 1 <= pageSize_ ->
  Z.of_nat (length (page_slice l pageSize_ p))
  = Z.max 0 (Z.min pageSize_ (Z.of_nat (length l) - (p - 1) * pageSize_)).
Proof.
  intros Hp Hs. rewrite page_slice_window by assumption.
  rewrite length_firstn, length_skipn.
  pose proof (page_start_nonneg p pageSize_ Hp Hs). lia.
Qed.

(** X3: for page >= 1 and pageSize >= 1 the page holds
    [min(pageSize, totalResults - (page-1)*pageSize)] results, and none
    when that is negative: never more than [pageSize]. *)
Theorem page_result_count (page_ pageSize_ : Z) (st : ScanState) :
  1 <= page_ ->
  1 <= pageSize_ ->
  let v := on_close page_ pageSize_ st in
  Z.of_nat (length (results v))
  = Z.max 0 (Z.min pageSize_
               (totalResults (pagination v) - (page_ - 1) * pageSize_))
  /\ Z.of_nat (length (results v)) <= pageSize_.
Proof.
  intros Hp Hs v.
  assert (H : Z.of_nat (length (results v))
              = Z.max 0 (Z.min pageSize_
                           (Z.of_nat (length (st_results st))
                            - (page_ - 1) * pageSize_))).
  { unfold v. rewrite on_close_results, length_map.
    now apply page_slice_length. }
  split; [exact H|lia].
Qed.

(** X4: for page >= 1 and pageSize >= 1, [hasNextPage] is true exactly
    when the next page has a result, and a page that has a next page is
    full. *)
Theorem hasNextPage_iff_next_page_nonempty
  (page_ pageSize_ : Z) (st : ScanState) :
  1 <= page_ ->
  1 <= pageSize_ ->
  (hasNextPage (pagination (on_close page_ pageSize_ st)) = true
   <-> results (on_close (page_ + 1) pageSize_ st) <> [])
  /\ (hasNextPage (pagination (on_close page_ pageSize_ st)) = true ->
      Z.of_nat (length (results (on_close page_ pageSize_ st))) = pageSize_).
Proof.
  intros Hp Hs.
  set (n := Z.of_nat (length (st_results st))).
  pose proof (Math_ceil_div_bounds n pageSize_ ltac:(lia)) as Hb.
  assert (Hnext : hasNextPage (pagination (on_close page_ pageSize_ st)) = true
                  <-> page_ * pageSize_ < n).
  { cbn [on_close pagination hasNextPage]. fold n.
    rewrite Z.ltb_lt. split; intros H; nia. }
  split.
  - rewrite Hnext.
    pose proof (page_slice_length (st_results st) pageSize_ (page_ + 1)
                  ltac:(lia) Hs) as Hlen.
    fold n in Hlen.
    replace (page_ + 1 - 1) with page_ in Hlen by lia.
    rewrite on_close_results.
    destruct (page_slice (st_results st) pageSize_ (page_ + 1)) as [|x l].
    + cbn [length Z.of_nat] in Hlen. split; [lia|contradiction].
    + cbn [map]. split; [discriminate|].
      intros _. cbn [length] in Hlen. lia.
  - intros H. apply Hnext in H.
    rewrite on_close_results, length_map.
    rewrite page_slice_length by assumption. fold n. nia.
Qed.

(** X5: for page >= 1 and pageSize >= 1, the page has a result exactly
    when [page <= totalPages]. *)
Theorem page_nonempty_iff_in_range (page_ pageSize_ : Z) (st : ScanState) :
  1 <= page_ ->
  1 <= pageSize_ ->
  results (on_close page_ pageSize_ st) <> []
  <-> page_ <= totalPages (pagination (on_close page_ pageSize_ st)).
Proof.
  intros Hp Hs.
  set (n := Z.of_nat (length (st_results st))).
  pose proof (Math_ceil_div_bounds n pageSize_ ltac:(lia)) as Hb.
  pose proof (page_slice_length (st_results st) pageSize_ page_ Hp Hs)
    as Hlen.
  fold n in Hlen.
  rewrite on_close_results. cbn [on_close pagination totalPages]. fold n.
  destruct (page_slice (st_results st) pageSize_ page_) as [|x l].
  - cbn [length Z.of_nat] in Hlen. split; [contradiction|]. intros H. nia.
  - cbn [map]. split; [|discriminate].
    intros _. cbn [length] in Hlen. nia.
Qed.

(* ================================================================= *)
(** ** Further properties: the matches of a scan *)

Lemma sorted_NoDup (l : list MatchRecord) :
  StronglySorted (fun a b => lineNumber a < lineNumber b) l -> NoDup l.
Proof.
  induction 1 as [|r l Hs IH Hall]; constructor; [|exact IH].
  intros Hin. rewrite Forall_forall in Hall.
  specialize (Hall r Hin). exact (Z.lt_irrefl _ Hall).
Qed.

Lemma page_slices_disjoint {A : Type} (l : list A) (pageSize_ p q : Z)
  (x : A) :
  NoDup l -> 1 <= pageSize_ -> 1 <= p -> p < q ->
  In x (page_slice l pageSize_ p) -> ~ In x (page_slice l pageSize_ q).
Proof.
  intros Hnd Hs Hp Hq Hxp Hxq.
  apply In_nth_error in Hxp as [i Hi]. apply In_nth_error in Hxq as [j Hj].
  assert (Hil : (i < length (page_slice l pageSize_ p))%nat)
    by (apply nth_error_Some; now rewrite Hi).
  assert (Hjl : (j < length (page_slice l pageSize_ q))%nat)
    by (apply nth_error_Some; now rewrite Hj).
  destruct (page_slice_nth l pageSize_ p i Hp Hs Hil) as [Hlt Hpi].
  destruct (page_slice_nth l pageSize_ q j ltac:(lia) Hs Hjl) as [_ Hqj].
  rewrite Hi in Hpi. rewrite Hj in Hqj.
  pose proof (page_position_lt pageSize_ p q i j Hp Hq Hs Hlt) as Hpos.
  rewrite NoDup_nth_error in Hnd.
  assert (Hsame : page_position pageSize_ p i = page_position pageSize_ q j).
  { apply Hnd; [|congruence]. apply nth_error_Some. now rewrite <- Hpi. }
  lia.
Qed.

(** X6: the scan never records a line twice: its records are pairwise
    different, there are at most as many as lines, every line number
    lies between 1 and the number of lines, and therefore no record of
    a scan is on two pages. *)
Theorem scan_records_distinct
  (toLowerCase : jsstring -> jsstring) (term : jsstring)
  (lines : list jsstring) :
  let found := scan toLowerCase term lines in
  NoDup found
  /\ (length found <= length lines)%nat
  /\ (forall r, In r found ->
        1 <= lineNumber r <= Z.of_nat (length lines))
  /\ (forall (pageSize_ p q : Z) (x : MatchRecord),
        1 <= pageSize_ -> 1 <= p -> p < q ->
        In x (page_slice found pageSize_ p) ->
        ~ In x (page_slice found pageSize_ q)).
Proof.
  intros found.
  assert (Hfound : found = matching_lines toLowerCase
                             (replace term [SPACE] [UNDERSCORE]) lines)
    by apply scan_matching_lines.
  assert (Hnd : NoDup found).
  { rewrite Hfound. apply sorted_NoDup.
    apply (sorted_matching_from toLowerCase _ lines 0). }
  split; [exact Hnd|]. split; [|split].
  - rewrite Hfound. unfold matching_lines, numbered.
    rewrite (length_matching_from toLowerCase _ lines 0).
    apply filter_length_le.
  - intros r Hr. rewrite Hfound in Hr.
    apply (In_matching_from toLowerCase _ lines 0) in Hr
      as (i & Hi & Hn & _).
    assert (i < length lines)%nat
      by (apply nth_error_Some; now rewrite Hi).
    lia.
  - intros pageSize_ p q x Hs Hp Hq. now apply page_slices_disjoint.
Qed.

Lemma matching_from_shift (toLowerCase : jsstring -> jsstring)
  (term : jsstring) (lines : list jsstring) :
  forall j k : nat,
    map record_of (filter (accepts toLowerCase term)
                     (numbered_from (j + k) lines))
    = map (shift_record k)
        (map record_of (filter (accepts toLowerCase term)
                          (numbered_from j lines))).
Proof.
  induction lines as [|l lines IH]; intros j k; [reflexivity|].
  unfold numbered_from. cbn [length seq map combine filter].
  fold (numbered_from (S (j + k)) lines). fold (numbered_from (S j) lines).
  change (S (j + k)) with (S j + k)%nat.
  assert (E : forall n, accepts toLowerCase term (n, l)
                        = includes (toLowerCase l) (toLowerCase term))
    by reflexivity.
  rewrite !E.
  destruct (includes (toLowerCase l) (toLowerCase term)).
  - cbn [map]. rewrite IH. f_equal.
    unfold shift_record, record_of. cbn [fst snd line lineNumber].
    f_equal. lia.
  - apply IH.
Qed.

(** X7: lines added at the end of a file keep the matches of the file
    as they are: the scan of [lines ++ more] is the scan of [lines]
    followed by the scan of [more] with its line numbers moved by the
    number of [lines]. *)
Theorem scan_app
  (toLowerCase : jsstring -> jsstring) (term : jsstring)
  (lines more : list jsstring) :
  scan toLowerCase term (lines ++ more)
  = scan toLowerCase term lines
    ++ map (shift_record (length lines)) (scan toLowerCase term more).
Proof.
  unfold scan at 1. rewrite fold_left_app.
  rewrite scan_lineNumber, fold_on_line. cbn [st_results].
  rewrite <- scan_matching_lines. f_equal.
  rewrite (matching_from_shift toLowerCase _ more 0 (length lines)).
  now rewrite scan_matching_lines.
Qed.

Lemma on_line_lower (toLowerCase : jsstring -> jsstring)
  (t1 t2 : jsstring) (st : ScanState) (text : jsstring) :
  toLowerCase t1 = toLowerCase t2 ->
  on_line toLowerCase t1 st text = on_line toLowerCase t2 st text.
Proof. intros H. unfold on_line. now rewrite H. Qed.

Lemma dispatch_lower (toLowerCase : jsstring -> jsstring)
  (t1 t2 : jsstring) (page_ pageSize_ : Z) (events : list rl_event) :
  toLowerCase t1 = toLowerCase t2 ->
  forall st p,
    dispatch toLowerCase t1 page_ pageSize_ events st p
    = dispatch toLowerCase t2 page_ pageSize_ events st p.
Proof.
  intros H. induction events as [|[text| |cause] events IH]; intros st p;
    cbn [dispatch]; [reflexivity| | |]; try apply IH.
  rewrite (on_line_lower toLowerCase t1 t2 st text H). apply IH.
Qed.

(** X8: the search sees a term only through the lower-case form of its
    normalized form: two terms that agree there, such as two spellings
    that differ in case, give the same outcome on every file, page and
    page size. *)
Theorem search_ignores_case_of_term
  (toLowerCase : jsstring -> jsstring) (fs : FileSystem)
  (filePath t1 t2 : jsstring) (page_ pageSize_ : Z) :
  toLowerCase (replace t1 [SPACE] [UNDERSCORE])
  = toLowerCase (replace t2 [SPACE] [UNDERSCORE]) ->
  searchFile toLowerCase fs filePath t1 page_ pageSize_
  = searchFile toLowerCase fs filePath t2 page_ pageSize_.
Proof.
  intros H. unfold searchFile, searchFile_normalized.
  destruct (negb (existsSync fs filePath)); [reflexivity|].
  now apply dispatch_lower.
Qed.

(* ================================================================= *)
(** ** Further properties: the formatter *)




Lemma join_split_ws (s : jsstring) :
  single_spaced s = true -> join [SPACE] (split_ws s) = s.
Proof.
  induction s as [|c s IH]; intros Hs; [reflexivity|].
  cbn [single_spaced] in Hs. apply andb_true_iff in Hs as [Hc Hs].
  specialize (IH Hs).
  pose proof (split_ws_nonempty s) as Hne.
  destruct (isWhiteSpace c) eqn:Hws.
  - apply andb_true_iff in Hc as [Hc Hstart].
    apply N.eqb_eq in Hc. apply negb_true_iff in Hstart. subst c.
    assert (Hsplit : split_ws (SPACE :: s) = [] :: split_ws s).
    { cbn [split_ws]. rewrite Hws.
      destruct s as [|d s]; [reflexivity|].
      cbn [starts_ws] in Hstart. now rewrite Hstart. }
    rewrite Hsplit.
    destruct (split_ws s) as [|p ps]; [contradiction|].
    change (join [SPACE] ([] :: p :: ps))
      with (SPACE :: join [SPACE] (p :: ps)).
    now rewrite IH.
  - cbn [split_ws]. rewrite Hws.
    destruct (split_ws s) as [|p ps]; [contradiction|].
    rewrite <- IH. destruct ps; reflexivity.
Qed.

(** X10: on a line whose runs of white space are single spaces the
    formatter loses nothing: [id], a space and [value] are the line. *)
Theorem single_spaced_line_recovered (r : MatchRecord) (kv : KeyValue) :
  single_spaced (line r) = true ->
  keyValue (formatRecord r) = Some kv ->
  id kv ++ SPACE :: value kv = line r.
Proof.
  intros Hs. pose proof (join_split_ws (line r) Hs) as Hjoin.
  rewrite formatRecord_parts.
  destruct (split_ws (line r)) as [|first [|second rest]];
    cbn [keyValue]; try discriminate.
  intros [= <-]. cbn [id value]. exact Hjoin.
Qed.

(* ================================================================= *)
(** ** Further properties: arguments, file details and file lists *)

(** X11: arguments that [FileSearchSchema] accepts are in range: the
    query is the string that was sent, the page is at least 1 (1 when
    absent) and the page size lies between 1 and 100 (10 when absent). *)
Theorem parsed_arguments_in_range
  (args : ToolArguments) (parsed : FileSearchArgs) :
  FileSearchSchema_parse args = Some parsed ->
  arg_query args = JString (query parsed)
  /\ 1 <= filePage parsed
  /\ 1 <= filePageSize parsed <= 100
  /\ (arg_page args = JUndefined /\ filePage parsed = 1
      \/ arg_page args = JInteger (filePage parsed))
  /\ (arg_pageSize args = JUndefined /\ filePageSize parsed = 10
      \/ arg_pageSize args = JInteger (filePageSize parsed)).
Proof.
  unfold FileSearchSchema_parse.
  destruct (arg_query args) as [|q| |]; try discriminate.
  destruct (arg_page args) as [| |n|]; try discriminate;
    destruct (arg_pageSize args) as [| |m|]; try discriminate;
    repeat match goal with
           | |- context [if ?b then _ else _] => destruct b eqn:?
           end;
    try discriminate; intros [= <-]; cbn [query filePage filePageSize];
    repeat split; try lia; auto.
Qed.

(** X12: [getFileDetails] answers [{ exists: false }] exactly for a
    missing file and the error object exactly when [statSync] throws on
    an existing file; in the details of a file, [lineCount] is 0 exactly
    when the file cannot be read, and at least 1 otherwise. *)
Theorem file_details_cases
  (DATA_DIR : jsstring) (path_join : jsstring -> jsstring -> jsstring)
  (fs : FileSystem) (filename : jsstring) :
  let filePath := path_join DATA_DIR filename in
  (getFileDetails DATA_DIR path_join fs filename = NoSuchFile
   <-> fs filePath = None)
  /\ (getFileDetails DATA_DIR path_join fs filename = DetailsError
      <-> exists f, fs filePath = Some f /\ file_stats f = None)
  /\ (forall sz lineCount created modified,
        getFileDetails DATA_DIR path_join fs filename
        = Details sz lineCount created modified ->
        exists f, fs filePath = Some f
                  /\ 0 <= lineCount
                  /\ (lineCount = 0 <-> file_utf8 f = None)).
Proof.
  intros filePath.
  unfold getFileDetails, getFileLineCount, existsSync, statSync,
    readFileSync.
  fold filePath.
  destruct (fs filePath) as [f|]; cbn [negb].
  - destruct (file_stats f) as [stats|] eqn:Hst.
    + split; [split; discriminate|].
      split; [split; [discriminate|intros (f' & [= <-] & H); congruence]|].
      intros sz lineCount created modified [= _ <- _ _].
      exists f. split; [reflexivity|].
      destruct (file_utf8 f) as [content|].
      * rewrite split_length. split; [lia|]. split; [lia|discriminate].
      * split; [lia|]. split; reflexivity.
    + split; [split; discriminate|].
      split; [|discriminate].
      split; [intros _; now exists f|reflexivity].
  - split; [split; reflexivity|].
    split; [split; [discriminate|intros (f & H & _); discriminate]|].
    discriminate.
Qed.

Lemma jsstring_eqb_eq (a b : jsstring) : jsstring_eqb a b = true <-> a = b.
Proof.
  revert b; induction a as [|c a IH]; intros [|d b]; cbn;
    try (split; [discriminate|discriminate]); [tauto|].
  rewrite andb_true_iff, N.eqb_eq, IH.
  split; [intros [-> ->]; reflexivity|intros [= -> ->]; now split].
Qed.

(** [endsWith] decides "ends with". *)
Lemma endsWith_suffix (s suffix : jsstring) :
  endsWith s suffix = true <-> exists base, s = base ++ suffix.
Proof.
  unfold endsWith. split.
  - destruct (Z.ltb_spec (Z.of_nat (length s) - Z.of_nat (length suffix)) 0)
      as [Hneg|Hpos]; [discriminate|].
    intros H. apply jsstring_eqb_eq in H.
    exists (firstn (Z.to_nat (Z.of_nat (length s)
                              - Z.of_nat (length suffix))) s).
    rewrite <- H at 2. symmetry. apply firstn_skipn.
  - intros [base ->]. rewrite length_app.
    replace (Z.of_nat (length base + length suffix)
             - Z.of_nat (length suffix)) with (Z.of_nat (length base)) by lia.
    destruct (Z.ltb_spec (Z.of_nat (length base)) 0) as [Hneg|Hpos]; [lia|].
    rewrite Nat2Z.id, skipn_app, skipn_all, Nat.sub_diag. cbn.
    now apply jsstring_eqb_eq.
Qed.

(** X13: [listDataFiles] with a file type that is not empty lists, in
    the order of the directory, exactly its files of the form
    [base.fileType]; with no file type, or the empty one, it lists
    every file; and when the directory cannot be read it lists
    nothing. *)
Theorem listDataFiles_cases
  (DATA_DIR : jsstring) (dirs : Directories) (fileType : option jsstring) :
  match dirs DATA_DIR with
  | None => listDataFiles DATA_DIR dirs fileType = []
  | Some files =>
      match fileType with
      | None | Some [] => listDataFiles DATA_DIR dirs fileType = files
      | Some (c :: rest) =>
          listDataFiles DATA_DIR dirs fileType
          = filter (fun file => endsWith file (str "." ++ c :: rest)) files
          /\ (forall file,
                In file (listDataFiles DATA_DIR dirs fileType)
                <-> In file files
                    /\ exists base, file = base ++ str "." ++ c :: rest)
      end
  end.
Proof.
  unfold listDataFiles.
  destruct (dirs DATA_DIR) as [files|]; [|reflexivity].
  destruct fileType as [[|c rest]|]; try reflexivity.
  split; [reflexivity|].
  intros file. rewrite filter_In, endsWith_suffix. reflexivity.
Qed.

(* ================================================================= *)
(** ** Further properties: the handler of the tool calls *)

Lemma FileSearchSchema_parse_range
  (args : ToolArguments) (parsed : FileSearchArgs) :
  FileSearchSchema_parse args = Some parsed ->
  1 <= filePage parsed /\ 1 <= filePageSize parsed <= 100.
Proof.
  unfold FileSearchSchema_parse.
  destruct (arg_query args) as [|q| |]; try discriminate.
  destruct (arg_page args) as [| |n|]; try discriminate;
    destruct (arg_pageSize args) as [| |m|]; try discriminate;
    repeat match goal with
           | |- context [if ?b then _ else _] => destruct b eqn:?
           end;
    try discriminate; intros [= <-]; cbn [filePage filePageSize]; lia.
Qed.

(** [traverses] decides the three forbidden patterns. *)
Lemma traverses_spec (filename : jsstring) :
  traverses filename = false
  <-> ~ substring (str "..") filename
      /\ ~ substring (str "/") filename
      /\ ~ substring (str "\") filename.
Proof.
  unfold traverses. rewrite !orb_false_iff.
  rewrite <- !includes_substring.
  split.
  - intros [[H1 H2] H3]. rewrite H1, H2, H3. repeat split; discriminate.
  - intros (H1 & H2 & H3). repeat split; now apply not_true_is_false.
Qed.

Lemma replace_prefix (pat rest : jsstring) :
  replace (pat ++ rest) pat [] = rest.
Proof.
  destruct (pat ++ rest) as [|c s] eqn:E.
  - destruct pat; [|discriminate]. cbn in E. subst rest. reflexivity.
  - cbn [replace]. rewrite <- E, startsWith_app. cbn [app].
    now rewrite skipn_app, skipn_all, Nat.sub_diag.
Qed.

Section Handler.

Variable toLowerCase : jsstring -> jsstring.
Variable DATA_DIR : jsstring.
Variable path_join : jsstring -> jsstring -> jsstring.
Variable wiki : jsstring -> option CallArguments -> ToolOutcome.
Variable fs : FileSystem.
Variable dirs : Directories.

Let call := callTool toLowerCase DATA_DIR path_join wiki fs dirs.
Let search := search_data toLowerCase DATA_DIR path_join fs.

(** The ways a call of a file tool can end. *)
Lemma callTool_cases (name : jsstring) (args : option CallArguments) :
  existsb (jsstring_eqb name) wiki_tools = false ->
  call name args = Threw InvalidArguments
  \/ call name args = Threw (ExecutionError name InvalidFilename)
  \/ call name args = Threw (ExecutionError name (UnknownTool name))
  \/ (exists d, call name args = Returned (DetailsResponse d))
  \/ (exists files, call name args = Returned (FilesResponse files DATA_DIR))
  \/ (exists a filename parsed,
        args = Some a
        /\ FileSearchSchema_parse (search_arguments a) = Some parsed
        /\ call name args = search name filename parsed).
Proof.
  intros Hwiki. unfold call, callTool. rewrite Hwiki. cbn [rethrow].
  destruct (existsb (jsstring_eqb name) file_search_tools).
  { destruct args as [a|]; [|now left].
    destruct (FileSearchSchema_parse (search_arguments a)) as [parsed|] eqn:E;
      [|now left].
    do 5 right. exists a, (replace name (str "search_") [] ++ str ".txt"),
      parsed. now repeat split. }
  destruct (jsstring_eqb name (str "search_data_file")).
  { destruct args as [a|]; [|now left].
    unfold GenericFileSearchSchema_parse.
    destruct (call_filename a) as [|filename| |]; try now left.
    destruct (FileSearchSchema_parse (search_arguments a)) as [parsed|] eqn:E;
      [|now left].
    destruct (traverses filename); [right; now left|].
    do 5 right. exists a, filename, parsed. now repeat split. }
  destruct (jsstring_eqb name (str "get_file_details")).
  { destruct args as [a|]; [|now left].
    destruct (FileDetailsSchema_parse a) as [filename|]; [|now left].
    destruct (traverses filename); [right; now left|].
    do 3 right. left. now eexists. }
  destruct (jsstring_eqb name (str "list_data_files")).
  { destruct args as [a|]; [|now left].
    destruct (ListDataFilesSchema_parse a) as [fileType|]; [|now left].
    do 4 right. left. now eexists. }
  do 2 right. now left.
Qed.

(** The two ways the file part of a search can end. *)
Lemma search_data_cases (name filename : jsstring)
  (parsed : FileSearchArgs) :
  (fs (path_join DATA_DIR filename) = None
   /\ search name filename parsed
      = Returned (ErrorResponse
                    (filename ++ str " not found in data directory")))
  \/ (fs (path_join DATA_DIR filename) <> None
      /\ search name filename parsed
         = await name
             (searchFile toLowerCase fs (path_join DATA_DIR filename)
                (query parsed) (filePage parsed) (filePageSize parsed))).
Proof.
  unfold search, search_data, fileExists, existsSync.
  destruct (fs (path_join DATA_DIR filename)); cbn [negb].
  - right. split; [discriminate|reflexivity].
  - left. now split.
Qed.

(** An error of an execution names the tool that was called. *)
Lemma callTool_names_tool (name tool : jsstring)
  (args : option CallArguments) (err : ToolError) :
  existsb (jsstring_eqb name) wiki_tools = false ->
  call name args = Threw (ExecutionError tool err) ->
  tool = name.
Proof.
  intros Hwiki He.
  destruct (callTool_cases name args Hwiki)
    as [H|[H|[H|[[d H]|[[files H]|(a & filename & parsed & _ & _ & H)]]]]];
    rewrite H in He; try discriminate; try (now injection He as -> _).
  destruct (search_data_cases name filename parsed) as [[_ Hs]|[_ Hs]];
    rewrite Hs in He; [discriminate|].
  destruct (searchFile toLowerCase fs (path_join DATA_DIR filename)
              (query parsed) (filePage parsed) (filePageSize parsed));
    cbn [await rethrow] in He; try discriminate.
  now injection He as -> _.
Qed.

(** The file part of a search under two tool names. *)
Lemma search_data_under_tool (name other filename : jsstring)
  (parsed : FileSearchArgs) :
  search name filename parsed
  = under_tool name (search other filename parsed).
Proof.
  unfold search, search_data.
  destruct (negb (fileExists DATA_DIR path_join fs filename));
    [reflexivity|].
  destruct (searchFile toLowerCase fs (path_join DATA_DIR filename)
              (query parsed) (filePage parsed) (filePageSize parsed));
    reflexivity.
Qed.

(** X14: a response of a file tool that carries search results has a
    page of at least 1, a page size between 1 and 100, and at most
    [pageSize], hence at most 100, results. *)
Theorem tool_response_bounded
  (name : jsstring) (args : option CallArguments) (v : PageResult) :
  existsb (jsstring_eqb name) wiki_tools = false ->
  call name args = Returned (SearchResponse v) ->
  1 <= page (pagination v)
  /\ 1 <= pageSize (pagination v) <= 100
  /\ Z.of_nat (length (results v)) <= pageSize (pagination v).
Proof.
  intros Hwiki Hv.
  destruct (callTool_cases name args Hwiki)
    as [H|[H|[H|[[d H]|[[files H]|(a & filename & parsed & _ & Hp & H)]]]]];
    rewrite H in Hv; try discriminate.
  destruct (search_data_cases name filename parsed) as [[_ Hs]|[_ Hs]];
    rewrite Hs in Hv; [discriminate|].
  destruct (searchFile toLowerCase fs (path_join DATA_DIR filename)
              (query parsed) (filePage parsed) (filePageSize parsed))
    as [|v'|e] eqn:Hsearch; cbn [await rethrow] in Hv; try discriminate.
  injection Hv as ->.
  apply searchFile_resolved in Hsearch as [st ->].
  apply FileSearchSchema_parse_range in Hp as [Hpage Hsize].
  cbn [on_close pagination page pageSize].
  split; [exact Hpage|]. split; [exact Hsize|].
  rewrite on_close_results, length_map, page_slice_length by lia. lia.
Qed.

(** X15: on a file system that does not change during the call, a file
    tool never fails with the "file not found" error of [searchFile]:
    the only search failure it throws is the error of the readline
    interface, under the name of the tool that was called. *)
Theorem tool_never_throws_file_not_found
  (name tool : jsstring) (args : option CallArguments) (e : SearchError) :
  existsb (jsstring_eqb name) wiki_tools = false ->
  call name args = Threw (ExecutionError tool (SearchFailed e)) ->
  tool = name /\ exists cause, e = IOError cause.
Proof.
  intros Hwiki He.
  destruct (callTool_cases name args Hwiki)
    as [H|[H|[H|[[d H]|[[files H]|(a & filename & parsed & _ & Hp & H)]]]]];
    rewrite H in He; try discriminate.
  destruct (search_data_cases name filename parsed) as [[_ Hs]|[Hex Hs]];
    rewrite Hs in He; [discriminate|].
  destruct (searchFile toLowerCase fs (path_join DATA_DIR filename)
              (query parsed) (filePage parsed) (filePageSize parsed))
    as [|v'|e'] eqn:Hsearch; cbn [await rethrow] in He; try discriminate.
  injection He as -> ->. split; [reflexivity|].
  apply searchFile_rejected in Hsearch as [[_ Hmiss]|Hio]; [|exact Hio].
  unfold existsSync in Hmiss.
  destruct (fs (path_join DATA_DIR filename)); [discriminate|].
  now destruct Hex.
Qed.

(** X16: [search_data_file] on a file that is not in the data directory
    answers with the object [{ error: "<filename> not found in data
    directory" }], whatever the query and the page. *)
Theorem missing_data_file_reported
  (a : CallArguments) (filename : jsstring) (parsed : FileSearchArgs) :
  call_filename a = JString filename ->
  FileSearchSchema_parse (search_arguments a) = Some parsed ->
  traverses filename = false ->
  fs (path_join DATA_DIR filename) = None ->
  call (str "search_data_file") (Some a)
  = Returned (ErrorResponse
                (filename ++ str " not found in data directory")).
Proof.
  intros Hfn Hp Htr Hmiss.
  unfold call, callTool, GenericFileSearchSchema_parse.
  cbn [existsb wiki_tools file_search_tools].
  change (existsb (jsstring_eqb (str "search_data_file")) wiki_tools)
    with false.
  rewrite Hfn, Hp, Htr.
  unfold search_data, fileExists, existsSync. now rewrite Hmiss.
Qed.

(** X17: a file name with [".."], ["/"] or a backslash is refused by
    [search_data_file] (once its other arguments are valid) and by
    [get_file_details] with "Invalid filename", whatever the file
    system holds; so a response of either tool is about a file name
    with none of the three. *)
Theorem traversal_refused (a : CallArguments) (filename : jsstring) :
  call_filename a = JString filename ->
  (traverses filename = true ->
   call (str "get_file_details") (Some a)
   = Threw (ExecutionError (str "get_file_details") InvalidFilename)
   /\ (forall parsed,
         FileSearchSchema_parse (search_arguments a) = Some parsed ->
         call (str "search_data_file") (Some a)
         = Threw (ExecutionError (str "search_data_file") InvalidFilename)))
  /\ (forall name response,
        name = str "search_data_file" \/ name = str "get_file_details" ->
        call name (Some a) = Returned response ->
        ~ substring (str "..") filename
        /\ ~ substring (str "/") filename
        /\ ~ substring (str "\") filename).
Proof.
  intros Hfn. split.
  - intros Htr. split.
    + unfold call, callTool, FileDetailsSchema_parse.
      change (existsb (jsstring_eqb (str "get_file_details")) wiki_tools)
        with false.
      change (existsb (jsstring_eqb (str "get_file_details"))
                file_search_tools) with false.
      change (jsstring_eqb (str "get_file_details") (str "search_data_file"))
        with false.
      change (jsstring_eqb (str "get_file_details") (str "get_file_details"))
        with true.
      cbv iota. now rewrite Hfn, Htr.
    + intros parsed Hp.
      unfold call, callTool, GenericFileSearchSchema_parse.
      change (existsb (jsstring_eqb (str "search_data_file")) wiki_tools)
        with false.
      change (existsb (jsstring_eqb (str "search_data_file"))
                file_search_tools) with false.
      change (jsstring_eqb (str "search_data_file") (str "search_data_file"))
        with true.
      cbv iota. now rewrite Hfn, Hp, Htr.
  - intros name response Hname Hret.
    apply traverses_spec.
    destruct (traverses filename) eqn:Htr; [exfalso|reflexivity].
    destruct Hname as [-> | ->]; revert Hret;
      unfold call, callTool, GenericFileSearchSchema_parse,
        FileDetailsSchema_parse.
    + change (existsb (jsstring_eqb (str "search_data_file")) wiki_tools)
        with false.
      change (existsb (jsstring_eqb (str "search_data_file"))
                file_search_tools) with false.
      change (jsstring_eqb (str "search_data_file") (str "search_data_file"))
        with true.
      cbv iota. rewrite Hfn.
      destruct (FileSearchSchema_parse (search_arguments a));
        [rewrite Htr|]; discriminate.
    + change (existsb (jsstring_eqb (str "get_file_details")) wiki_tools)
        with false.
      change (existsb (jsstring_eqb (str "get_file_details"))
                file_search_tools) with false.
      change (jsstring_eqb (str "get_file_details") (str "search_data_file"))
        with false.
      change (jsstring_eqb (str "get_file_details") (str "get_file_details"))
        with true.
      cbv iota. rewrite Hfn, Htr. discriminate.
Qed.

End Handler.

Lemma under_tool_Returned (name : jsstring) (o : ToolOutcome)
  (response : ToolResponse) :
  under_tool name o = Returned response <-> o = Returned response.
Proof.
  destruct o as [r|[|tool err]|]; cbn [under_tool]; split;
    try discriminate; auto.
Qed.

(** X18: each of the thirteen tools [search_<type>] ends like
    [search_data_file] on the file [<type>.txt] with the same query,
    page and page size, but for the tool name in the error of an
    execution: both return the same response, and when one throws the
    error of an execution the other throws the same error under its own
    name, so the two messages differ in the tool name only. *)
Theorem dedicated_tool_is_generic_search
  (toLowerCase : jsstring -> jsstring) (DATA_DIR : jsstring)
  (path_join : jsstring -> jsstring -> jsstring)
  (wiki : jsstring -> option CallArguments -> ToolOutcome)
  (fs : FileSystem) (dirs : Directories)
  (type : jsstring) (a : CallArguments) :
  In (str "search_" ++ type) file_search_tools ->
  let dedicated :=
    callTool toLowerCase DATA_DIR path_join wiki fs dirs
      (str "search_" ++ type) (Some a) in
  let generic :=
    callTool toLowerCase DATA_DIR path_join wiki fs dirs
      (str "search_data_file") (Some (with_filename a (type ++ str ".txt"))) in
  dedicated = under_tool (str "search_" ++ type) generic
  /\ (forall response,
        dedicated = Returned response <-> generic = Returned response)
  /\ (forall err,
        dedicated = Threw (ExecutionError (str "search_" ++ type) err)
        <-> generic = Threw (ExecutionError (str "search_data_file") err))
  /\ (forall err,
        thrown_message (ExecutionError (str "search_" ++ type) err)
        <> thrown_message (ExecutionError (str "search_data_file") err)).
Proof.
  intros Hin dedicated generic.
  assert (Hfacts :
    existsb (jsstring_eqb (str "search_" ++ type)) wiki_tools = false
    /\ existsb (jsstring_eqb (str "search_" ++ type)) file_search_tools = true
    /\ traverses (type ++ str ".txt") = false
    /\ str "search_" ++ type <> str "search_data_file").
  { unfold file_search_tools in Hin. cbn [In] in Hin.
    repeat match type of Hin with
           | _ \/ _ => destruct Hin as [Hin|Hin]
           end;
      try contradiction;
      match type of Hin with
      | ?name = _ =>
          let t := eval vm_compute in (skipn 7 name) in
          change name with (str "search_" ++ t) in Hin
      end;
      apply app_inv_head in Hin; subst type;
      repeat split; try discriminate; vm_compute; reflexivity. }
  destruct Hfacts as (Hwiki & Htool & Htr & Hname).
  assert (Heq : dedicated = under_tool (str "search_" ++ type) generic).
  { unfold dedicated, generic.
    unfold callTool at 1. rewrite Hwiki, Htool, replace_prefix.
    unfold callTool, GenericFileSearchSchema_parse.
    change (existsb (jsstring_eqb (str "search_data_file")) wiki_tools)
      with false.
    change (existsb (jsstring_eqb (str "search_data_file")) file_search_tools)
      with false.
    change (jsstring_eqb (str "search_data_file") (str "search_data_file"))
      with true.
    cbv iota. cbn [with_filename call_filename].
    change (search_arguments (with_filename a (type ++ str ".txt")))
      with (search_arguments a).
    destruct (FileSearchSchema_parse (search_arguments a)); [|reflexivity].
    rewrite Htr. apply search_data_under_tool. }
  split; [exact Heq|]. split; [|split].
  - intros response. rewrite Heq. apply under_tool_Returned.
  - intros err. rewrite Heq. split.
    + intros H.
      destruct generic as [r|[|tool err']|] eqn:Hg; cbn [under_tool] in H;
        try discriminate.
      injection H as ->.
      assert (tool = str "search_data_file") as ->; [|reflexivity].
      now apply (callTool_names_tool toLowerCase DATA_DIR path_join wiki fs
                   dirs (str "search_data_file") tool
                   (Some (with_filename a (type ++ str ".txt"))) err).
    + intros ->. reflexivity.
  - intros err H. unfold thrown_message in H.
    apply app_inv_head in H. rewrite !app_assoc in H.
    apply app_inv_tail in H. apply app_inv_tail in H.
    now apply Hname.
Qed.

(* ================================================================= *)
(** ** The further properties on the sample data *)

Lemma error_before_close_rejects_witness :
  sample_broken_fs sample_path = Some sample_broken_file
  /\ searchFile ascii_toLowerCase sample_broken_fs sample_path
       (str "dragon") 1 10
     = Rejected (IOError (str "EIO: i/o error")).
Proof.
  split; [reflexivity|].
  exact (error_before_close_rejects ascii_toLowerCase sample_broken_fs
           sample_path (str "dragon") 1 10 sample_broken_file
           [str "100 Dragon scimitar"] (str "EIO: i/o error")
           [LineEvent (str "101 Dragon longsword"); CloseEvent]
           eq_refl eq_refl).
Defined.

Lemma events_after_close_ignored_witness :
  sample_noisy_fs sample_path = Some sample_noisy_file
  /\ searchFile ascii_toLowerCase sample_noisy_fs sample_path
       (str "dragon") 1 10
     = Resolved (on_close 1 10 sample_state).
Proof.
  split; [reflexivity|].
  exact (events_after_close_ignored ascii_toLowerCase sample_noisy_fs
           sample_path (str "dragon") 1 10 sample_noisy_file sample_lines
           [LineEvent (str "300 Dragon dagger"); ErrorEvent (str "late")]
           eq_refl eq_refl).
Defined.

Lemma page_result_count_witness :
  1 <= 2 /\ 1 <= 1
  /\ Z.of_nat (length (results (on_close 2 1 sample_state))) <= 1.
Proof.
  split; [lia|]. split; [lia|].
  exact (proj2 (page_result_count 2 1 sample_state ltac:(lia) ltac:(lia))).
Defined.

Lemma hasNextPage_iff_next_page_nonempty_witness :
  1 <= 1 /\ 1 <= 1
  /\ (hasNextPage (pagination (on_close 1 1 sample_state)) = true
      <-> results (on_close (1 + 1) 1 sample_state) <> []).
Proof.
  split; [lia|]. split; [lia|].
  exact (proj1 (hasNextPage_iff_next_page_nonempty 1 1 sample_state
                  ltac:(lia) ltac:(lia))).
Defined.

Lemma page_nonempty_iff_in_range_witness :
  1 <= 3 /\ 1 <= 1
  /\ (results (on_close 3 1 sample_state) <> []
      <-> 3 <= totalPages (pagination (on_close 3 1 sample_state))).
Proof.
  split; [lia|]. split; [lia|].
  exact (page_nonempty_iff_in_range 3 1 sample_state ltac:(lia) ltac:(lia)).
Defined.

Lemma scan_records_distinct_witness :
  NoDup (scan ascii_toLowerCase (str "dragon") sample_lines)
  /\ (In {| line := str "100 Dragon scimitar"; lineNumber := 1 |}
        (page_slice (scan ascii_toLowerCase (str "dragon") sample_lines) 1 1)
      -> ~ In {| line := str "100 Dragon scimitar"; lineNumber := 1 |}
             (page_slice (scan ascii_toLowerCase (str "dragon") sample_lines)
                1 2)).
Proof.
  pose proof (scan_records_distinct ascii_toLowerCase (str "dragon")
                sample_lines) as (H1 & _ & _ & H4).
  split; [exact H1|].
  exact (H4 1 1 2 _ ltac:(lia) ltac:(lia) ltac:(lia)).
Defined.

Lemma search_ignores_case_of_term_witness :
  ascii_toLowerCase (replace (str "DRAGON scim") [SPACE] [UNDERSCORE])
  = ascii_toLowerCase (replace (str "dragon Scim") [SPACE] [UNDERSCORE])
  /\ searchFile ascii_toLowerCase sample_fs sample_path (str "DRAGON scim") 1 10
     = searchFile ascii_toLowerCase sample_fs sample_path (str "dragon Scim")
         1 10.
Proof.
  split; [reflexivity|].
  exact (search_ignores_case_of_term ascii_toLowerCase sample_fs sample_path
           (str "DRAGON scim") (str "dragon Scim") 1 10 eq_refl).
Defined.


Lemma single_spaced_line_recovered_witness :
  single_spaced (str "100 Dragon scimitar") = true
  /\ str "100" ++ SPACE :: str "Dragon scimitar" = str "100 Dragon scimitar".
Proof.
  split; [reflexivity|].
  exact (single_spaced_line_recovered
           {| line := str "100 Dragon scimitar"; lineNumber := 1 |}
           sample_keyValue eq_refl eq_refl).
Defined.

Lemma parsed_arguments_in_range_witness :
  FileSearchSchema_parse (search_arguments sample_call)
  = Some {| query := str "dragon"; filePage := 1; filePageSize := 10 |}
  /\ 1 <= 10 <= 100.
Proof.
  split; [reflexivity|].
  exact (proj1 (proj2 (proj2
           (parsed_arguments_in_range (search_arguments sample_call)
              {| query := str "dragon"; filePage := 1; filePageSize := 10 |}
              eq_refl)))).
Defined.

Lemma file_details_cases_witness :
  sample_fs (sample_path_join sample_DATA_DIR (str "missing.txt")) = None
  /\ getFileDetails sample_DATA_DIR sample_path_join sample_fs
       (str "missing.txt")
     = NoSuchFile.
Proof.
  split; [reflexivity|].
  exact (proj2 (proj1 (file_details_cases sample_DATA_DIR sample_path_join
                         sample_fs (str "missing.txt")))
           eq_refl).
Defined.

Lemma tool_response_bounded_witness :
  existsb (jsstring_eqb (str "search_objtypes")) wiki_tools = false
  /\ callTool ascii_toLowerCase sample_DATA_DIR sample_path_join sample_wiki
       sample_fs sample_dirs (str "search_objtypes") (Some sample_call)
     = Returned (SearchResponse (on_close 1 10 sample_state))
  /\ Z.of_nat (length (results (on_close 1 10 sample_state))) <= 10.
Proof.
  split; [reflexivity|]. split; [reflexivity|].
  exact (proj2 (proj2
           (tool_response_bounded ascii_toLowerCase sample_DATA_DIR
              sample_path_join sample_wiki sample_fs sample_dirs
              (str "search_objtypes") (Some sample_call)
              (on_close 1 10 sample_state) eq_refl eq_refl))).
Defined.

Lemma tool_never_throws_file_not_found_witness :
  callTool ascii_toLowerCase sample_DATA_DIR sample_path_join sample_wiki
    sample_broken_fs sample_dirs (str "search_objtypes") (Some sample_call)
  = Threw (ExecutionError (str "search_objtypes")
             (SearchFailed (IOError (str "EIO: i/o error"))))
  /\ exists cause, IOError (str "EIO: i/o error") = IOError cause.
Proof.
  split; [reflexivity|].
  exact (proj2 (tool_never_throws_file_not_found ascii_toLowerCase
                  sample_DATA_DIR sample_path_join sample_wiki
                  sample_broken_fs sample_dirs
                  (str "search_objtypes") (str "search_objtypes")
                  (Some sample_call)
                  (IOError (str "EIO: i/o error")) eq_refl eq_refl)).
Defined.

Lemma missing_data_file_reported_witness :
  callTool ascii_toLowerCase sample_DATA_DIR sample_path_join sample_wiki
    sample_fs sample_dirs (str "search_data_file")
    (Some (with_filename sample_call (str "missing.txt")))
  = Returned (ErrorResponse (str "missing.txt not found in data directory")).
Proof.
  exact (missing_data_file_reported ascii_toLowerCase sample_DATA_DIR
           sample_path_join sample_wiki sample_fs sample_dirs
           (with_filename sample_call (str "missing.txt"))
           (str "missing.txt")
           {| query := str "dragon"; filePage := 1; filePageSize := 10 |}
           eq_refl eq_refl eq_refl eq_refl).
Defined.

Lemma traversal_refused_witness :
  traverses (str "../objtypes.txt") = true
  /\ callTool ascii_toLowerCase sample_DATA_DIR sample_path_join sample_wiki
       sample_fs sample_dirs (str "get_file_details")
       (Some (with_filename sample_call (str "../objtypes.txt")))
     = Threw (ExecutionError (str "get_file_details") InvalidFilename).
Proof.
  split; [reflexivity|].
  exact (proj1 (proj1 (traversal_refused ascii_toLowerCase sample_DATA_DIR
                         sample_path_join sample_wiki sample_fs sample_dirs
                         (with_filename sample_call (str "../objtypes.txt"))
                         (str "../objtypes.txt") eq_refl)
                  eq_refl)).
Defined.

Lemma dedicated_tool_is_generic_search_witness :
  In (str "search_" ++ str "objtypes") file_search_tools
  /\ callTool ascii_toLowerCase sample_DATA_DIR sample_path_join sample_wiki
       sample_broken_fs sample_dirs (str "search_objtypes") (Some sample_call)
     = under_tool (str "search_objtypes")
         (callTool ascii_toLowerCase sample_DATA_DIR sample_path_join
            sample_wiki sample_broken_fs sample_dirs (str "search_data_file")
            (Some (with_filename sample_call (str "objtypes.txt"))))
  /\ callTool ascii_toLowerCase sample_DATA_DIR sample_path_join sample_wiki
       sample_broken_fs sample_dirs (str "search_data_file")
       (Some (with_filename sample_call (str "objtypes.txt")))
     = Threw (ExecutionError (str "search_data_file")
                (SearchFailed (IOError (str "EIO: i/o error")))).
Proof.
  assert (Hin : In (str "search_" ++ str "objtypes") file_search_tools)
    by (do 6 right; left; reflexivity).
  split; [exact Hin|]. split; [|reflexivity].
  exact (proj1 (dedicated_tool_is_generic_search ascii_toLowerCase
                  sample_DATA_DIR sample_path_join sample_wiki
                  sample_broken_fs sample_dirs
                  (str "objtypes") sample_call Hin)).
Defined.
